(** * Docker Registry Cleaner: a shallow embedding of [main.go]

    The program keeps the [keepLast] most recently created images of every
    repository of a Docker registry and deletes the manifests of the others.
    This development embeds its functions one by one and proves the
    properties stated about them.

    What belongs to Go's standard library or to the outside world (the HTTP
    transport, the wall clock, the JSON scanner, [sort.Slice]) is reached
    through two type classes, [Platform] and [GoSort]; everything written in
    [main.go] is a definition below. *)

From Stdlib Require Import ZArith String Ascii List Bool Lia.
From Stdlib Require Import Permutation Sorted DecimalString.
Import ListNotations.

Local Open Scope string_scope.
Local Open Scope Z_scope.
Local Open Scope list_scope.
Local Set Warnings "-register-all".

Infix "+++" := String.append (right associativity, at level 60).

(* ================================================================== *)
(** ** Go values *)

(** Go's [error] interface is observed by the program only through [%v],
    that is through its message; [nil] is [None] where a bare [error] is
    returned. *)
Definition error := string.

(** A function returning [(T, error)] returns the zero [T] with every
    non-nil error and the callers never read it. *)
Definition Result (A : Type) := (error + A)%type.

(** [time.Time] as an instant: nanoseconds elapsed since
    0001-01-01T00:00:00Z, which is where Go's zero [time.Time{}] sits.  The
    monotonic clock reading that [time.Now] attaches is not represented. *)
Definition Time := Z.
Definition zeroTime : Time := 0.

(** [t.After(u)] *)
Definition After (t u : Time) : bool := u <? t.

(** [%d] of an [int]. *)
Definition itoa (n : Z) : string := NilZero.string_of_int (Z.to_int n).

(** [len(s)] of a string or a slice, as an [int]. *)
Definition len {A} (l : list A) : Z := Z.of_nat (List.length l).
Definition strlen (s : string) : Z := Z.of_nat (String.length s).

(** [strings.HasSuffix] and [strings.TrimSuffix]. *)
Definition HasSuffix (s suffix : string) : bool :=
  (String.length suffix <=? String.length s)%nat &&
  String.eqb
    (substring (String.length s - String.length suffix) (String.length suffix) s)
    suffix.

Definition TrimSuffix (s suffix : string) : string :=
  if HasSuffix s suffix
  then substring 0 (String.length s - String.length suffix) s
  else s.

(* ================================================================== *)
(** ** Data model (the [type] declarations of [main.go]) *)

Record RegistryClient := {
  BaseURL : string;
  Username : string;
  Password : string
  (* Client *http.Client: a 30 second timeout, part of the transport *)
}.

Record RepositoriesResponse := { Repositories : list string }.

Record TagsResponse := { Name : string; Tags : list string }.

Record HistoryEntry := { V1Compatibility_string : string }.

Record ManifestResponse := {
  ManifestResponse_SchemaVersion : Z;
  History : list HistoryEntry
}.

Record ManifestV2Config := { Config_Digest : string }.

Record ManifestV2Response := {
  ManifestV2Response_SchemaVersion : Z;
  MediaType : string;
  ManifestV2Response_Config : ManifestV2Config
}.

Record ConfigLabels := { Labels : list (string * string) }.

Record ConfigResponse := {
  ConfigResponse_Created : Time;
  ConfigResponse_Config : ConfigLabels
}.

Record V1Compatibility := { V1Compatibility_Created : Time }.

Record ImageInfo := {
  Repository : string;
  Tag : string;
  Digest : string;
  Created : Time
}.

(* ================================================================== *)
(** ** encoding/json, as far as the two structs holding [created] need it *)

(** A scanned JSON value.  Object members stay in document order, repeated
    keys included, because the decoder visits them in that order. *)
Inductive JSON :=
| JNull
| JBool (b : bool)
| JNum (literal : string)
| JStr (s : string)
| JArr (items : list JSON)
| JObj (members : list (string * JSON)).

Definition is_byte (c : ascii) (n : nat) : bool := Nat.eqb (nat_of_ascii c) n.

Definition lower (c : ascii) : ascii :=
  let n := nat_of_ascii c in
  if ((65 <=? n) && (n <=? 90))%nat then ascii_of_nat (n + 32) else c.

(** Object keys are matched to struct fields up to Unicode simple case
    folding.  The field names of this program are ASCII, and the only
    non-ASCII runes folding to an ASCII letter are U+017F (long s, bytes
    197 191) and U+212A (Kelvin sign, bytes 226 132 170). *)
Fixpoint foldName (s : string) : string :=
  match s with
  | EmptyString => EmptyString
  | String c r =>
    match r with
    | String c2 r2 =>
      if is_byte c 197 && is_byte c2 191 then String "s" (foldName r2)
      else
        match r2 with
        | String c3 r3 =>
          if is_byte c 226 && is_byte c2 132 && is_byte c3 170
          then String "k" (foldName r3)
          else String (lower c) (foldName r)
        | EmptyString => String (lower c) (foldName r)
        end
    | EmptyString => String (lower c) (foldName r)
    end
  end.

Definition fieldMatch (field key : string) : bool :=
  String.eqb (foldName key) (foldName field).

(** [Time.UnmarshalJSON]: [null] leaves the field as it is, a string is
    parsed as RFC 3339, anything else is an error. *)
Definition unmarshalTime (parse : string -> option Time)
    (v : JSON) (old : Time) : option Time :=
  match v with
  | JNull => Some old
  | JStr s => parse s
  | _ => None
  end.

(** A [map[string]string] element: a string, or [null] for the zero value. *)
Definition unmarshalLabel (v : JSON) : option string :=
  match v with
  | JStr s => Some s
  | JNull => Some EmptyString
  | _ => None
  end.

Fixpoint unmarshalLabelEntries (kvs : list (string * JSON))
    (old : list (string * string)) : option (list (string * string)) :=
  match kvs with
  | [] => Some old
  | (k, v) :: rest =>
    match unmarshalLabel v with
    | Some s =>
      unmarshalLabelEntries rest
        ((k, s) :: filter (fun e => negb (String.eqb (fst e) k)) old)
    | None => None
    end
  end.

Definition unmarshalLabels (v : JSON) (old : list (string * string))
  : option (list (string * string)) :=
  match v with
  | JNull => Some []
  | JObj kvs => unmarshalLabelEntries kvs old
  | _ => None
  end.

(** The anonymous struct [Config struct { Labels map[string]string }]. *)
Fixpoint unmarshalConfigMembers (kvs : list (string * JSON))
    (old : ConfigLabels) : option ConfigLabels :=
  match kvs with
  | [] => Some old
  | (k, v) :: rest =>
    if fieldMatch "Labels" k then
      match unmarshalLabels v (Labels old) with
      | Some m => unmarshalConfigMembers rest {| Labels := m |}
      | None => None
      end
    else unmarshalConfigMembers rest old
  end.

Definition unmarshalConfigLabels (v : JSON) (old : ConfigLabels)
  : option ConfigLabels :=
  match v with
  | JNull => Some old
  | JObj kvs => unmarshalConfigMembers kvs old
  | _ => None
  end.

(** Members are stored in document order into the struct built so far; a key
    matching no field is skipped; the first error makes the call fail (the
    program only tests [err == nil]). *)
Fixpoint unmarshalConfigResponseMembers (parse : string -> option Time)
    (kvs : list (string * JSON)) (old : ConfigResponse)
  : option ConfigResponse :=
  match kvs with
  | [] => Some old
  | (k, v) :: rest =>
    if fieldMatch "created" k then
      match unmarshalTime parse v (ConfigResponse_Created old) with
      | Some t =>
        unmarshalConfigResponseMembers parse rest
          {| ConfigResponse_Created := t;
             ConfigResponse_Config := ConfigResponse_Config old |}
      | None => None
      end
    else if fieldMatch "config" k then
      match unmarshalConfigLabels v (ConfigResponse_Config old) with
      | Some c =>
        unmarshalConfigResponseMembers parse rest
          {| ConfigResponse_Created := ConfigResponse_Created old;
             ConfigResponse_Config := c |}
      | None => None
      end
    else unmarshalConfigResponseMembers parse rest old
  end.

Definition zeroConfigResponse : ConfigResponse :=
  {| ConfigResponse_Created := zeroTime;
     ConfigResponse_Config := {| Labels := [] |} |}.

(** Decoding into [var config ConfigResponse]. *)
Definition unmarshalConfigResponse (parse : string -> option Time) (v : JSON)
  : option ConfigResponse :=
  match v with
  | JNull => Some zeroConfigResponse
  | JObj kvs => unmarshalConfigResponseMembers parse kvs zeroConfigResponse
  | _ => None
  end.

Fixpoint unmarshalV1CompatibilityMembers (parse : string -> option Time)
    (kvs : list (string * JSON)) (old : V1Compatibility)
  : option V1Compatibility :=
  match kvs with
  | [] => Some old
  | (k, v) :: rest =>
    if fieldMatch "created" k then
      match unmarshalTime parse v (V1Compatibility_Created old) with
      | Some t =>
        unmarshalV1CompatibilityMembers parse rest
          {| V1Compatibility_Created := t |}
      | None => None
      end
    else unmarshalV1CompatibilityMembers parse rest old
  end.

(** Decoding into [var v1Compat V1Compatibility]. *)
Definition unmarshalV1Compatibility (parse : string -> option Time) (v : JSON)
  : option V1Compatibility :=
  match v with
  | JNull => Some {| V1Compatibility_Created := zeroTime |}
  | JObj kvs =>
    unmarshalV1CompatibilityMembers parse kvs
      {| V1Compatibility_Created := zeroTime |}
  | _ => None
  end.

(** A JSON document without a [created] member: [null], or an object none
    of whose keys is matched to that field. *)
Definition lacksCreated (v : JSON) : Prop :=
  v = JNull \/
  exists kvs, v = JObj kvs /\
    Forall (fun kv => fieldMatch "created" (fst kv) = false) kvs.

(* ================================================================== *)
(** ** net/http values *)

Record Request := {
  Method : string;
  URL : string;
  BasicAuth : option (string * string);
  Accept : string
}.

Record Response := {
  StatusCode : Z;
  Header : list (string * string);
  Body : string
}.

(** [resp.Header.Get(key)]: the first value stored under [key], or the empty
    string. *)
Definition Header_Get (h : list (string * string)) (key : string) : string :=
  match find (fun kv => String.eqb (fst kv) key) h with
  | Some kv => snd kv
  | None => EmptyString
  end.

Definition StatusOK : Z := 200.
Definition StatusAccepted : Z := 202.
Definition StatusUnauthorized : Z := 401.
Definition StatusForbidden : Z := 403.
Definition StatusNotFound : Z := 404.
Definition StatusMethodNotAllowed : Z := 405.

Definition SetBasicAuth (username password : string) (req : Request) : Request :=
  {| Method := Method req; URL := URL req;
     BasicAuth := Some (username, password); Accept := Accept req |}.

Definition SetAccept (value : string) (req : Request) : Request :=
  {| Method := Method req; URL := URL req;
     BasicAuth := BasicAuth req; Accept := value |}.

Definition mediaTypeV1 : string :=
  "application/vnd.docker.distribution.manifest.v1+json".
Definition mediaTypeV2 : string :=
  "application/vnd.docker.distribution.manifest.v2+json".

(* ================================================================== *)
(** ** The platform: standard library and outside world *)

(** [Env] is whatever the run cannot see: the registry behind the HTTP
    client and the wall clock.  A request steps it and yields either a
    transport error or a response; reading the clock steps it too.
    [NewRequest_error] is the error of [http.NewRequest], if any.
    [Decoder_scan] and [Unmarshal_scan] are the syntax half of
    [json.Decoder.Decode] (the first value of the stream) and of
    [json.Unmarshal] (the whole input).  Decoding into the four structs that
    hold no [created] field is taken whole, as the library does it. *)
Class Platform := {
  Env : Type;
  os_Getenv : string -> string;
  NewRequest_error : string -> string -> option error;
  Client_Do : Request -> Env -> Result Response * Env;
  time_Now : Env -> Time * Env;
  Decoder_scan : string -> option JSON;
  Unmarshal_scan : string -> option JSON;
  parseRFC3339 : string -> option Time;
  Decode_RepositoriesResponse : string -> Result RepositoriesResponse;
  Decode_TagsResponse : string -> Result TagsResponse;
  Decode_ManifestResponse : string -> Result ManifestResponse;
  Decode_ManifestV2Response : string -> Result ManifestV2Response
}.

(** [sort.Slice]: the result is a rearrangement of the slice in which no
    element is [less] than an earlier one, provided [less] is a strict weak
    ordering.  Nothing is promised about elements that compare equal. *)
Definition StrictWeakOrder {A} (less : A -> A -> bool) : Prop :=
  (forall x y, less x y = true -> less y x = false) /\
  (forall x y z, less x y = true -> less x z = true \/ less z y = true).

Class GoSort := {
  sort_Slice : forall A : Type, (A -> A -> bool) -> list A -> list A
}.

Class GoSortLaws (G : GoSort) : Prop := {
  sort_Slice_perm : forall A (less : A -> A -> bool) l,
      Permutation l (sort_Slice A less l);
  sort_Slice_sorted : forall A (less : A -> A -> bool) l,
      StrictWeakOrder less ->
      StronglySorted (fun x y => less y x = false) (sort_Slice A less l)
}.

(* ================================================================== *)
(** ** Effects: a state monad over the world, with panics and exits *)

Inductive Arg :=
| S_ (s : string)                       (* %s *)
| D_ (n : Z)                            (* %d *)
| V_ (err : error)                      (* %v of an error *)
| T_ (t : Time) (layout : string).      (* %s of t.Format(layout) *)

Inductive Output :=
| Printf (format : string) (args : list Arg)
| Println (line : string)
| Fatalf (format : string) (args : list Arg).

Inductive Outcome (A : Type) :=
| Return (a : A)
| Panic (msg : string)
| Exit (code : Z).
Arguments Return {A} a.
Arguments Panic {A} msg.
Arguments Exit {A} code.

(** [s[:n]] on a string and [l[n:]] on a slice, with Go's bounds checks. *)
Definition string_to (s : string) (n : Z) : Outcome string :=
  if (0 <=? n) && (n <=? strlen s)
  then Return (substring 0 (Z.to_nat n) s)
  else Panic ("runtime error: slice bounds out of range [:" +++ itoa n +++
              "] with length " +++ itoa (strlen s)).

Definition slice_from {A} (l : list A) (n : Z) : Outcome (list A) :=
  if (0 <=? n) && (n <=? len l)
  then Return (skipn (Z.to_nat n) l)
  else Panic ("runtime error: slice bounds out of range [" +++ itoa n +++ ":" +++
              (if n <? 0 then EmptyString else itoa (len l)) +++ "]").

Section Program.
Context {P : Platform} {G : GoSort}.

(** The world of a run: the environment, every HTTP exchange made so far and
    everything written to the terminal, both oldest first. *)
Definition Exchange : Type := Request * Result Response.

Record World := {
  env : Env;
  exchanges : list Exchange;
  stdout : list Output
}.

Definition M (A : Type) : Type := World -> Outcome A * World.

Definition ret {A} (a : A) : M A := fun w => (Return a, w).

Definition bind {A B} (m : M A) (f : A -> M B) : M B :=
  fun w =>
    match m w with
    | (Return a, w') => f a w'
    | (Panic msg, w') => (Panic msg, w')
    | (Exit code, w') => (Exit code, w')
    end.

Notation "x <- m ;; k" := (bind m (fun x => k))
  (at level 61, m at next level, right associativity).
Notation "m ;; k" := (bind m (fun _ => k))
  (at level 61, right associativity).

Definition write (o : Output) : M unit :=
  fun w =>
    (Return tt,
     {| env := env w; exchanges := exchanges w; stdout := stdout w ++ [o] |}).

Definition printf (format : string) (args : list Arg) : M unit :=
  write (Printf format args).

Definition println (line : string) : M unit := write (Println line).

(** [log.Fatalf]: write the message, then [os.Exit(1)]. *)
Definition fatalf {A} (format : string) (args : list Arg) : M A :=
  fun w =>
    (Exit 1,
     {| env := env w; exchanges := exchanges w;
        stdout := stdout w ++ [Fatalf format args] |}).

(** [rc.Client.Do(req)] *)
Definition Do (req : Request) : M (Result Response) :=
  fun w =>
    let (r, e) := Client_Do req (env w) in
    (Return r,
     {| env := e;
        exchanges := exchanges w ++ [(req, r) : Exchange];
        stdout := stdout w |}).

(** [time.Now()] *)
Definition Now : M Time :=
  fun w =>
    let (t, e) := time_Now (env w) in
    (Return t, {| env := e; exchanges := exchanges w; stdout := stdout w |}).

(** [for _, x := range l { body }] *)
Fixpoint forEach {A} (l : list A) (body : A -> M unit) : M unit :=
  match l with
  | [] => ret tt
  | x :: rest => body x ;; forEach rest body
  end.

(** [for i, x := range l { body }], counting from [i]. *)
Fixpoint forEachIndexed {A} (i : Z) (l : list A) (body : Z -> A -> M unit)
  : M unit :=
  match l with
  | [] => ret tt
  | x :: rest => body i x ;; forEachIndexed (i + 1) rest body
  end.

(** A step that touches nothing of the world. *)
Definition lift {A} (o : Outcome A) : M A := fun w => (o, w).

Definition sliceTo (s : string) (n : Z) : M string := lift (string_to s n).

Definition sliceFrom {A} (l : list A) (n : Z) : M (list A) :=
  lift (slice_from l n).

(* ------------------------------------------------------------------ *)
(** *** The registry client *)

(** [http.NewRequest(method, url, nil)] *)
Definition NewRequest (method url : string) : Result Request :=
  match NewRequest_error method url with
  | Some err => inl err
  | None =>
    inr {| Method := method; URL := url; BasicAuth := None;
           Accept := EmptyString |}
  end.

Definition NewRegistryClient (baseURL username password : string)
  : RegistryClient :=
  {| BaseURL := TrimSuffix baseURL "/";
     Username := username;
     Password := password |}.

(** [if rc.Username != "" && rc.Password != "" { req.SetBasicAuth(...) }] *)
Definition authenticate (rc : RegistryClient) (req : Request) : Request :=
  if negb (String.eqb (Username rc) EmptyString) &&
     negb (String.eqb (Password rc) EmptyString)
  then SetBasicAuth (Username rc) (Password rc) req
  else req.

Definition makeRequest (rc : RegistryClient) (method url : string)
  : M (Result Response) :=
  match NewRequest method url with
  | inl err => ret (inl err)
  | inr req => Do (SetAccept mediaTypeV2 (authenticate rc req))
  end.

Definition GetRepositories (rc : RegistryClient) : M (Result (list string)) :=
  let url := BaseURL rc +++ "/v2/_catalog" in
  r <- makeRequest rc "GET" url ;;
  match r with
  | inl err =>
    ret (inl ("ошибка при получении списка репозиториев: " +++ err))
  | inr resp =>
    if negb (StatusCode resp =? StatusOK) then
      ret (inl ("получен статус " +++ itoa (StatusCode resp) +++
                " при запросе репозиториев"))
    else
      match Decode_RepositoriesResponse (Body resp) with
      | inl err => ret (inl ("ошибка декодирования ответа: " +++ err))
      | inr repoResp => ret (inr (Repositories repoResp))
      end
  end.

Definition GetTags (rc : RegistryClient) (repository : string)
  : M (Result (list string)) :=
  let url := BaseURL rc +++ "/v2/" +++ repository +++ "/tags/list" in
  r <- makeRequest rc "GET" url ;;
  match r with
  | inl err =>
    ret (inl ("ошибка при получении тегов для " +++ repository +++ ": " +++ err))
  | inr resp =>
    if negb (StatusCode resp =? StatusOK) then
      ret (inl ("получен статус " +++ itoa (StatusCode resp) +++
                " при запросе тегов для " +++ repository))
    else
      match Decode_TagsResponse (Body resp) with
      | inl err => ret (inl ("ошибка декодирования тегов: " +++ err))
      | inr tagsResp => ret (inr (Tags tagsResp))
      end
  end.

Definition manifestURL (rc : RegistryClient) (repository reference : string)
  : string :=
  BaseURL rc +++ "/v2/" +++ repository +++ "/manifests/" +++ reference.

Definition GetManifestDigest (rc : RegistryClient) (repository tag : string)
  : M (Result string) :=
  let url := manifestURL rc repository tag in
  r <- makeRequest rc "HEAD" url ;;
  match r with
  | inl err =>
    ret (inl ("ошибка при получении манифеста для " +++ repository +++ ":" +++
              tag +++ ": " +++ err))
  | inr resp =>
    if negb (StatusCode resp =? StatusOK) then
      ret (inl ("получен статус " +++ itoa (StatusCode resp) +++
                " при запросе манифеста для " +++ repository +++ ":" +++ tag))
    else
      let digest := Header_Get (Header resp) "Docker-Content-Digest" in
      if String.eqb digest EmptyString then
        ret (inl ("digest не найден для " +++ repository +++ ":" +++ tag))
      else ret (inr digest)
  end.

(* ------------------------------------------------------------------ *)
(** *** GetImageCreated *)

(** [json.Unmarshal(data, &v1Compat)] and
    [json.NewDecoder(body).Decode(&config)]: scan, then store. *)
Definition Unmarshal_V1Compatibility (data : string) : option V1Compatibility :=
  match Unmarshal_scan data with
  | Some v => unmarshalV1Compatibility parseRFC3339 v
  | None => None
  end.

Definition Decode_ConfigResponse (body : string) : option ConfigResponse :=
  match Decoder_scan body with
  | Some v => unmarshalConfigResponse parseRFC3339 v
  | None => None
  end.

(** The schema-v1 attempt on the first response (the [if] at lines 183-191):
    [Some t] where the source returns [t], [None] where it falls through. *)
Definition createdFromV1 (resp : Response) : option Time :=
  if StatusCode resp =? StatusOK then
    match Decode_ManifestResponse (Body resp) with
    | inr manifest =>
      match History manifest with
      | entry :: _ =>
        match Unmarshal_V1Compatibility (V1Compatibility_string entry) with
        | Some v1Compat => Some (V1Compatibility_Created v1Compat)
        | None => None
        end
      | [] => None
      end
    | inl _ => None
    end
  else None.

(** The schema-v2 attempt on the second response (lines 210-226), which
    fetches the config blob. *)
Definition createdFromV2 (rc : RegistryClient) (repository : string)
    (resp : Response) : M (option Time) :=
  if StatusCode resp =? StatusOK then
    match Decode_ManifestV2Response (Body resp) with
    | inr manifestV2 =>
      let digest := Config_Digest (ManifestV2Response_Config manifestV2) in
      if negb (String.eqb digest EmptyString) then
        let configURL :=
          BaseURL rc +++ "/v2/" +++ repository +++ "/blobs/" +++ digest in
        r <- makeRequest rc "GET" configURL ;;
        match r with
        | inr configResp =>
          if StatusCode configResp =? StatusOK then
            match Decode_ConfigResponse (Body configResp) with
            | Some config => ret (Some (ConfigResponse_Created config))
            | None => ret None
            end
          else ret None
        | inl _ => ret None
        end
      else ret None
    | inl _ => ret None
    end
  else ret None.

Definition GetImageCreated (rc : RegistryClient) (repository tag : string)
  : M (Result Time) :=
  let url := manifestURL rc repository tag in
  match NewRequest "GET" url with
  | inl err => ret (inl err)
  | inr req =>
    r <- Do (SetAccept mediaTypeV1 (authenticate rc req)) ;;
    match r with
    | inl err =>
      ret (inl ("ошибка при получении манифеста для " +++ repository +++ ":" +++
                tag +++ ": " +++ err))
    | inr resp =>
      match createdFromV1 resp with
      | Some created => ret (inr created)
      | None =>
        match NewRequest "GET" url with
        | inl err => ret (inl err)
        | inr req2 =>
          r2 <- Do (SetAccept mediaTypeV2 (authenticate rc req2)) ;;
          match r2 with
          | inl err =>
            ret (inl ("ошибка при получении v2 манифеста для " +++ repository +++
                      ":" +++ tag +++ ": " +++ err))
          | inr resp2 =>
            c <- createdFromV2 rc repository resp2 ;;
            match c with
            | Some created => ret (inr created)
            | None =>
              printf "  Предупреждение: не удалось получить время создания для %s:%s, используем текущее время\n"
                     [S_ repository; S_ tag] ;;
              t <- Now ;;
              ret (inr t)
            end
          end
        end
      end
    end
  end.

(* ------------------------------------------------------------------ *)
(** *** DeleteManifest *)

(** The remediation text printed on status 405, one [Printf] per line. *)
Definition deleteDisabledGuidance : list string :=
  [ "\n🚨 ОШИБКА КОНФИГУРАЦИИ REGISTRY:\n";
    "Docker Registry не настроен для поддержки удаления образов.\n\n";
    "📋 Для исправления:\n";
    "1. Остановите Registry\n";
    "2. Добавьте в config.yml:\n";
    "   storage:\n";
    "     delete:\n";
    "       enabled: true\n";
    "3. Перезапустите Registry\n\n";
    "📄 Подробные инструкции: см. файл REGISTRY_SETUP.md\n\n" ].

(** The [switch resp.StatusCode] of lines 261-282, once the body is read. *)
Definition deleteFailure (status : Z) (body : string) : M error :=
  if status =? StatusMethodNotAllowed then
    forEach deleteDisabledGuidance (fun line => printf line []) ;;
    ret "удаление не поддерживается Registry (статус 405)"
  else if status =? StatusNotFound then
    ret ("манифест не найден (статус 404): " +++ body)
  else if status =? StatusUnauthorized then
    ret ("ошибка авторизации (статус 401): " +++ body)
  else if status =? StatusForbidden then
    ret ("доступ запрещен (статус 403): " +++ body)
  else
    ret ("получен статус " +++ itoa status +++ " при удалении манифеста: " +++
         body).

Definition DeleteManifest (rc : RegistryClient) (repository digest : string)
  : M (option error) :=
  let url := manifestURL rc repository digest in
  match NewRequest "DELETE" url with
  | inl err => ret (Some ("ошибка создания DELETE запроса: " +++ err))
  | inr req =>
    r <- Do (SetAccept mediaTypeV2 (authenticate rc req)) ;;
    match r with
    | inl err =>
      ret (Some ("ошибка при удалении манифеста " +++ digest +++ ": " +++ err))
    | inr resp =>
      if (StatusCode resp =? StatusAccepted) || (StatusCode resp =? StatusOK)
      then ret None
      else
        err <- deleteFailure (StatusCode resp) (Body resp) ;;
        ret (Some err)
    end
  end.

(* ------------------------------------------------------------------ *)
(** *** CleanupRepository *)

Definition layout : string := "2006-01-02 15:04:05".

(** The body of the loop over the tags (lines 302-323): [images] is the
    slice built so far, the result is the slice after this tag. *)
Definition resolveTag (rc : RegistryClient) (repository : string)
    (images : list ImageInfo) (tag : string) : M (list ImageInfo) :=
  d <- GetManifestDigest rc repository tag ;;
  match d with
  | inl err =>
    printf "  Предупреждение: не удалось получить digest для %s:%s: %v\n"
           [S_ repository; S_ tag; V_ err] ;;
    ret images
  | inr digest =>
    c <- GetImageCreated rc repository tag ;;
    created <-
      match c with
      | inl err =>
        printf "  Предупреждение: не удалось получить время создания для %s:%s: %v\n"
               [S_ repository; S_ tag; V_ err] ;;
        Now
      | inr created => ret created
      end ;;
    let images' :=
      images ++ [ {| Repository := repository; Tag := tag;
                     Digest := digest; Created := created |} ] in
    printf "  Образ %s:%s создан %s\n"
           [S_ repository; S_ tag; T_ created layout] ;;
    ret images'
  end.

Fixpoint resolveTags (rc : RegistryClient) (repository : string)
    (tags : list string) (images : list ImageInfo) : M (list ImageInfo) :=
  match tags with
  | [] => ret images
  | tag :: rest =>
    images' <- resolveTag rc repository images tag ;;
    resolveTags rc repository rest images'
  end.

(** The comparison handed to [sort.Slice] (line 327). *)
Definition newerFirst (a b : ImageInfo) : bool := After (Created a) (Created b).

Definition sortImages (images : list ImageInfo) : list ImageInfo :=
  sort_Slice ImageInfo newerFirst images.

(** Lines 331-338: one line per image, kept or to be deleted. *)
Definition reportImage (keepLast : Z) (i : Z) (img : ImageInfo) : M unit :=
  let status := if i >=? keepLast then "удалить" else "сохранить" in
  printf "    %d. %s:%s (%s) - %s\n"
         [D_ (i + 1); S_ (Repository img); S_ (Tag img);
          T_ (Created img) layout; S_ status].

(** The body of the loop over [toDelete] (lines 346-354). *)
Definition deleteImage (rc : RegistryClient) (img : ImageInfo) : M unit :=
  short <- sliceTo (Digest img) 12 ;;
  printf "  Удаляем %s:%s (создан: %s, digest: %s)\n"
         [S_ (Repository img); S_ (Tag img); T_ (Created img) layout;
          S_ short] ;;
  r <- DeleteManifest rc (Repository img) (Digest img) ;;
  match r with
  | Some err =>
    printf "  Ошибка при удалении %s:%s: %v\n"
           [S_ (Repository img); S_ (Tag img); V_ err]
  | None =>
    printf "  Успешно удален %s:%s\n" [S_ (Repository img); S_ (Tag img)]
  end.

(** Lines 340-355. *)
Definition deleteOld (rc : RegistryClient) (images : list ImageInfo)
    (keepLast : Z) : M unit :=
  if len images >? keepLast then
    toDelete <- sliceFrom images keepLast ;;
    printf "  Найдено %d образов, сохраняем %d новейших, удаляем %d старых\n"
           [D_ (len images); D_ keepLast; D_ (len toDelete)] ;;
    forEach toDelete (deleteImage rc)
  else ret tt.

(** Lines 325-357: everything after the images have been collected. *)
Definition retain (rc : RegistryClient) (collected : list ImageInfo)
    (keepLast : Z) : M (option error) :=
  let images := sortImages collected in
  printf "  Образы отсортированы по времени создания (новые первыми):\n" [] ;;
  forEachIndexed 0 images (reportImage keepLast) ;;
  deleteOld rc images keepLast ;;
  ret None.

Definition CleanupRepository (rc : RegistryClient) (repository : string)
    (keepLast : Z) : M (option error) :=
  printf "Обработка репозитория: %s\n" [S_ repository] ;;
  t <- GetTags rc repository ;;
  match t with
  | inl err => ret (Some err)
  | inr tags =>
    if len tags <=? keepLast then
      printf "  В репозитории %s только %d тегов, пропускаем\n"
             [S_ repository; D_ (len tags)] ;;
      ret None
    else
      images <- resolveTags rc repository tags [] ;;
      retain rc images keepLast
  end.

(** The retention plan the source leaves implicit: the first [keepLast]
    images of the sorted slice are reported as kept, [images[keepLast:]] is
    deleted when [len(images) > keepLast]. *)
Definition Keep (collected : list ImageInfo) (keepLast : Z) : list ImageInfo :=
  firstn (Z.to_nat keepLast) (sortImages collected).

Definition Delete (collected : list ImageInfo) (keepLast : Z)
  : Outcome (list ImageInfo) :=
  if len (sortImages collected) >? keepLast
  then slice_from (sortImages collected) keepLast
  else Return [].

(* ------------------------------------------------------------------ *)
(** *** main *)

(** The loop of lines 391-395. *)
Definition cleanupOne (client : RegistryClient) (keepLast : Z) (repo : string)
  : M unit :=
  r <- CleanupRepository client repo keepLast ;;
  match r with
  | Some err =>
    printf "Ошибка при очистке репозитория %s: %v\n" [S_ repo; V_ err]
  | None => ret tt
  end.

Definition main : M unit :=
  let registryURL :=
    if String.eqb (os_Getenv "REGISTRY_URL") EmptyString
    then "http://localhost:5000"
    else os_Getenv "REGISTRY_URL" in
  let username := os_Getenv "REGISTRY_USERNAME" in
  let password := os_Getenv "REGISTRY_PASSWORD" in
  let keepLast := 2 in
  printf "🐳 Docker Registry Cleaner\n" [] ;;
  printf "Подключение к Docker Registry: %s\n" [S_ registryURL] ;;
  let client := NewRegistryClient registryURL username password in
  r <- GetRepositories client ;;
  match r with
  | inl err =>
    fatalf "Ошибка при получении списка репозиториев: %v" [V_ err]
  | inr repositories =>
    if len repositories =? 0 then println "Репозитории не найдены"
    else
      printf "Найдено %d репозиториев\n" [D_ (len repositories)] ;;
      forEach repositories (cleanupOne client keepLast) ;;
      println "\n✅ Очистка завершена!" ;;
      println "\n⚠️  Важно: После удаления манифестов запустите garbage collection в Registry:" ;;
      println "docker exec <registry-container> registry garbage-collect /etc/docker/registry/config.yml"
  end.

End Program.

(* ================================================================== *)
(** ** Two sorts that [sort.Slice] may be *)

(** Two insertion sorts.  [insertAfter] puts the new element behind the
    elements it ties with, [insertBefore] in front of them. *)
Fixpoint insertAfter {A} (less : A -> A -> bool) (x : A) (l : list A) : list A :=
  match l with
  | [] => [x]
  | y :: l' => if less x y then x :: y :: l' else y :: insertAfter less x l'
  end.


Definition insertionSort {A} (less : A -> A -> bool) (l : list A) : list A :=
  fold_left (fun sorted x => insertAfter less x sorted) l [].


Definition stableSort : GoSort := {| sort_Slice := @insertionSort |}.


(* ================================================================== *)
(** ** What a run shows *)

Section Observations.
Context {P : Platform} {G : GoSort}.

(** [runs m post]: from every world [m] returns normally, and its result,
    the exchanges it made and what it printed satisfy [post]. *)
Definition runs {A} (m : M A)
    (post : A -> list Exchange -> list Output -> Prop) : Prop :=
  forall w, exists a w' ex out,
    m w = (Return a, w') /\
    exchanges w' = exchanges w ++ ex /\
    stdout w' = stdout w ++ out /\
    post a ex out.

(** A digest lookup that succeeded: a [HEAD] answered with status 200 and a
    non-empty [Docker-Content-Digest] header. *)
Definition digestResolved (x : Exchange) : bool :=
  String.eqb (Method (fst x)) "HEAD" &&
  match snd x with
  | inr resp =>
    (StatusCode resp =? StatusOK) &&
    negb (String.eqb (Header_Get (Header resp) "Docker-Content-Digest")
                     EmptyString)
  | inl _ => false
  end.

Definition resolved (ex : list Exchange) : nat :=
  List.length (filter digestResolved ex).

(** The repository named by a "processing repository" line. *)
Definition startedRepo (o : Output) : option string :=
  match o with
  | Printf format [S_ repo] =>
    if String.eqb format "Обработка репозитория: %s\n" then Some repo else None
  | _ => None
  end.


(** The image named by a "deleting" line, and the image and outcome named
    by the line that follows each attempt. *)
Definition attemptedImage (o : Output) : option (string * string) :=
  match o with
  | Printf format [S_ repo; S_ tag; T_ _ _; S_ _] =>
    if String.eqb format "  Удаляем %s:%s (создан: %s, digest: %s)\n"
    then Some (repo, tag) else None
  | _ => None
  end.

Definition reportedImage (o : Output) : option (string * string * option error) :=
  match o with
  | Printf format [S_ repo; S_ tag; V_ err] =>
    if String.eqb format "  Ошибка при удалении %s:%s: %v\n"
    then Some (repo, tag, Some err) else None
  | Printf format [S_ repo; S_ tag] =>
    if String.eqb format "  Успешно удален %s:%s\n"
    then Some (repo, tag, None) else None
  | _ => None
  end.

Fixpoint collect {B} (f : Output -> option B) (out : list Output) : list B :=
  match out with
  | [] => []
  | o :: rest =>
    match f o with
    | Some b => b :: collect f rest
    | None => collect f rest
    end
  end.

Definition started := collect startedRepo.
Definition attempted := collect attemptedImage.
Definition reported := collect reportedImage.

(** A [DELETE] that did not delete: no response, or a status other than
    200 and 202. *)
Definition deleteRefused (x : Exchange) : bool :=
  String.eqb (Method (fst x)) "DELETE" &&
  match snd x with
  | inr resp =>
    negb ((StatusCode resp =? StatusAccepted) || (StatusCode resp =? StatusOK))
  | inl _ => true
  end.

Definition refusals (ex : list Exchange) : nat :=
  List.length (filter deleteRefused ex).

(** Any [DELETE] at all. *)
Definition isDelete (x : Exchange) : bool := String.eqb (Method (fst x)) "DELETE".

Definition deletes (ex : list Exchange) : nat :=
  List.length (filter isDelete ex).

(** Every digest the registry ever sends has at least twelve bytes. *)
Definition LongDigests : Prop :=
  forall req e,
    match fst (Client_Do req e) with
    | inr resp =>
      let d := Header_Get (Header resp) "Docker-Content-Digest" in
      d = EmptyString \/ 12 <= strlen d
    | inl _ => True
    end.

(** Output that names no repository being started and no deletion. *)
Definition silent (out : list Output) : Prop :=
  started out = [] /\ attempted out = [] /\ reported out = [].

(** Whether [http.NewRequest] refuses the URL of the manifest to delete. *)
Definition deleteRejected (rc : RegistryClient) (repository digest : string)
  : bool :=
  match NewRequest "DELETE" (manifestURL rc repository digest) with
  | inl _ => true
  | inr _ => false
  end.

Definition imageKey (img : ImageInfo) : string * string :=
  (Repository img, Tag img).

Definition longDigest (img : ImageInfo) : Prop := 12 <= strlen (Digest img).

(** How many reports are failure reports. *)
Definition failures (reports : list (string * string * option error)) : nat :=
  List.length
    (filter (fun r => match snd r with Some _ => true | None => false end)
            reports).

(** How many of the images have a manifest URL that [http.NewRequest]
    refuses, so that their deletion fails before any request is sent. *)
Definition rejections (rc : RegistryClient) (imgs : list ImageInfo) : nat :=
  List.length
    (filter (fun img => deleteRejected rc (Repository img) (Digest img)) imgs).

(** What [resolveTag] and [resolveTags] promise about an image they add. *)
Definition resolvedFrom (repository : string) (tags : list string)
    (img : ImageInfo) : Prop :=
  Repository img = repository /\ In (Tag img) tags /\
  Digest img <> EmptyString /\ (LongDigests -> longDigest img).

(** [a] occurs somewhere before [b] in [l]. *)
Definition precedes {A} (a b : A) (l : list A) : Prop :=
  exists l1 l2 l3, l = l1 ++ a :: l2 ++ b :: l3.

(** The world once [CleanupRepository] has announced the repository. *)
Definition entered (repository : string) (w : World) : World :=
  snd (printf "Обработка репозитория: %s\n" [S_ repository] w).

(** A world that differs from [w] by printed lines only. *)
Definition printed (w : World) (lines : list Output) : World :=
  {| env := env w; exchanges := exchanges w; stdout := stdout w ++ lines |}.


(** [safely I m Q]: however a run of [m] ends, every exchange it made
    satisfies [I], and if it returned, its result satisfies [Q]. *)
Definition safely {A} (I : Exchange -> Prop) (m : M A) (Q : A -> Prop) : Prop :=
  forall w o w',
    m w = (o, w') ->
    exists ex,
      exchanges w' = exchanges w ++ ex /\ Forall I ex /\
      match o with Return a => Q a | _ => True end.

(** A request carries the credentials of the client, and carries them only
    when the client has both a user name and a password. *)
Definition authenticated (rc : RegistryClient) (req : Request) : Prop :=
  match BasicAuth req with
  | Some (u, p) =>
    u = Username rc /\ p = Password rc /\
    u <> EmptyString /\ p <> EmptyString
  | None => Username rc = EmptyString \/ Password rc = EmptyString
  end.

(** A request of the client [rc] under the URL [scope]. *)
Definition sent (rc : RegistryClient) (scope : string) (x : Exchange) : Prop :=
  authenticated rc (fst x) /\
  (Method (fst x) = "GET" \/ Method (fst x) = "HEAD" \/
   Method (fst x) = "DELETE") /\
  (Accept (fst x) = mediaTypeV1 \/ Accept (fst x) = mediaTypeV2) /\
  exists rest, URL (fst x) = scope +++ rest.

(** The exchange [x] is a request of the client [rc] with this method, URL
    and [Accept] header. *)
Definition made (rc : RegistryClient) (method url accept : string)
    (x : Exchange) : Prop :=
  authenticated rc (fst x) /\ Method (fst x) = method /\
  URL (fst x) = url /\ Accept (fst x) = accept.

(** The requests [GetImageCreated] makes for a tag: the manifest under
    either schema, or a config blob. *)
Definition timestampLookup (rc : RegistryClient) (repository tag : string)
    (x : Exchange) : Prop :=
  made rc "GET" (manifestURL rc repository tag) mediaTypeV1 x \/
  made rc "GET" (manifestURL rc repository tag) mediaTypeV2 x \/
  exists digest,
    made rc "GET" (BaseURL rc +++ "/v2/" +++ repository +++ "/blobs/" +++ digest)
         mediaTypeV2 x.

(** The requests that only read from a repository: its tag list, and for a
    tag the digest and the timestamp. *)
Definition lookup (rc : RegistryClient) (repository : string) (x : Exchange)
  : Prop :=
  made rc "GET" (BaseURL rc +++ "/v2/" +++ repository +++ "/tags/list")
       mediaTypeV2 x \/
  exists tag,
    made rc "HEAD" (manifestURL rc repository tag) mediaTypeV2 x \/
    timestampLookup rc repository tag x.

(** The request that deletes the manifest of one of [imgs], by digest. *)
Definition deletionOf (rc : RegistryClient) (imgs : list ImageInfo)
    (x : Exchange) : Prop :=
  exists img,
    In img imgs /\
    made rc "DELETE" (manifestURL rc (Repository img) (Digest img))
         mediaTypeV2 x.

(** The URL under which everything of a repository lies. *)
Definition repositoryScope (rc : RegistryClient) (repository : string)
  : string :=
  BaseURL rc +++ "/v2/" +++ repository +++ "/".

(** Images that all name the repository [repository]. *)
Definition ofRepository (repository : string) (images : list ImageInfo)
  : Prop :=
  Forall (fun img => Repository img = repository) images.

(** [l1] is [l2] with some elements left out. *)
Inductive Subsequence {A} : list A -> list A -> Prop :=
| Subsequence_nil : Subsequence [] []
| Subsequence_skip x l1 l2 : Subsequence l1 l2 -> Subsequence l1 (x :: l2)
| Subsequence_take x l1 l2 :
    Subsequence l1 l2 -> Subsequence (x :: l1) (x :: l2).

(** The image named by a line of the printed plan that carries [status]. *)
Definition plannedImage (status : string) (o : Output)
  : option (string * string) :=
  match o with
  | Printf format [D_ _; S_ repo; S_ tag; T_ _ _; S_ st] =>
    if String.eqb format "    %d. %s:%s (%s) - %s\n" && String.eqb st status
    then Some (repo, tag) else None
  | _ => None
  end.

Definition markedToDelete := collect (plannedImage "удалить").
Definition markedToKeep := collect (plannedImage "сохранить").

(** What [main] builds before its first request: the registry URL, the
    client, and the two lines it prints. *)
Definition mainRegistryURL : string :=
  if String.eqb (os_Getenv "REGISTRY_URL") EmptyString
  then "http://localhost:5000"
  else os_Getenv "REGISTRY_URL".

Definition mainClient : RegistryClient :=
  NewRegistryClient mainRegistryURL
    (os_Getenv "REGISTRY_USERNAME") (os_Getenv "REGISTRY_PASSWORD").

Definition mainBanner : list Output :=
  [ Printf "🐳 Docker Registry Cleaner\n" [];
    Printf "Подключение к Docker Registry: %s\n" [S_ mainRegistryURL] ].

(** The exchanges [ex] answer to the first of [steps], one each and in
    order. *)
Fixpoint follows (steps : list (Exchange -> Prop)) (ex : list Exchange)
    {struct ex} : Prop :=
  match ex, steps with
  | [], _ => True
  | x :: rest, step :: later => step x /\ follows later rest
  | _ :: _, [] => False
  end.

End Observations.

(* ================================================================== *)
(** ** A registry to run the program against *)

Module Fixture.

(** Bodies are kept symbolic: the decoders of this platform read a body
    through small tables instead of scanning JSON text.  Instants are on an
    arbitrary scale. *)
Definition scan (body : string) : option JSON :=
  if String.eqb body "{}" then Some (JObj [])
  else if String.eqb body "{created:2023-01-01}" then
    Some (JObj [("created", JStr "2023-01-01T00:00:00Z")])
  else if String.eqb body "{created:2023-06-01}" then
    Some (JObj [("created", JStr "2023-06-01T00:00:00Z")])
  else if String.eqb body "{created:2024-01-01}" then
    Some (JObj [("created", JStr "2024-01-01T00:00:00Z")])
  else None.

Definition parseDate (s : string) : option Time :=
  if String.eqb s "2023-01-01T00:00:00Z" then Some 20230101
  else if String.eqb s "2023-06-01T00:00:00Z" then Some 20230601
  else if String.eqb s "2024-01-01T00:00:00Z" then Some 20240101
  else None.

Definition decodeRepositories (body : string) : Result RepositoriesResponse :=
  if String.eqb body "catalog" then inr {| Repositories := ["app"] |}
  else inl "EOF".

Definition decodeTags (body : string) : Result TagsResponse :=
  if String.eqb body "tags" then
    inr {| Name := "app"; Tags := ["v1"; "v2"; "v3"] |}
  else inl "EOF".

(** A schema-v1 manifest body stands for a history of one entry whose
    [v1Compatibility] string is the body itself. *)
Definition decodeManifest (body : string) : Result ManifestResponse :=
  if String.eqb body EmptyString then inl "EOF"
  else inr {| ManifestResponse_SchemaVersion := 1;
              History := [ {| V1Compatibility_string := body |} ] |}.

(** A schema-v2 manifest body stands for its config digest. *)
Definition decodeManifestV2 (body : string) : Result ManifestV2Response :=
  inr {| ManifestV2Response_SchemaVersion := 2;
         MediaType := mediaTypeV2;
         ManifestV2Response_Config := {| Config_Digest := body |} |}.

(** The registry answers by the request alone; the environment is the
    clock, which ticks on every request and every reading. *)
Definition platform (answer : Request -> Result Response) : Platform :=
  {| Env := Z;
     os_Getenv := fun _ => EmptyString;
     NewRequest_error := fun _ _ => None;
     Client_Do := fun req now => (answer req, now + 1);
     time_Now := fun now => (now, now + 1);
     Decoder_scan := scan;
     Unmarshal_scan := scan;
     parseRFC3339 := parseDate;
     Decode_RepositoriesResponse := decodeRepositories;
     Decode_TagsResponse := decodeTags;
     Decode_ManifestResponse := decodeManifest;
     Decode_ManifestV2Response := decodeManifestV2 |}.

Definition reply (status : Z) (digest body : string) : Result Response :=
  inr {| StatusCode := status;
         Header := [("Docker-Content-Digest", digest)];
         Body := body |}.

Definition hasSuffix (suffix : string) (req : Request) : bool :=
  HasSuffix (URL req) suffix.

(** The registry of the specification's scenario: repository [app] with
    tags [v1], [v2], [v3] created in 2023-01, 2023-06 and 2024-01, served
    as schema-v1 manifests; deletion is enabled. *)
Definition appRegistry (req : Request) : Result Response :=
  if String.eqb (Method req) "DELETE" then reply 202 "" ""
  else if hasSuffix "/v2/_catalog" req then reply 200 "" "catalog"
  else if hasSuffix "/tags/list" req then reply 200 "" "tags"
  else if hasSuffix "/manifests/v1" req then
    reply 200 "sha256:1111111111" "{created:2023-01-01}"
  else if hasSuffix "/manifests/v2" req then
    reply 200 "sha256:2222222222" "{created:2023-06-01}"
  else if hasSuffix "/manifests/v3" req then
    reply 200 "sha256:3333333333" "{created:2024-01-01}"
  else reply 404 "" "not found".

(** The same registry with deletion disabled in its storage settings. *)
Definition readOnlyRegistry (req : Request) : Result Response :=
  if String.eqb (Method req) "DELETE"
  then reply 405 "" "The operation is unsupported."
  else appRegistry req.

(** A registry whose digests are shorter than twelve bytes. *)
Definition shortDigestRegistry (req : Request) : Result Response :=
  match appRegistry req with
  | inr resp =>
    inr {| StatusCode := StatusCode resp;
           Header := [("Docker-Content-Digest",
                       substring 0 8
                         (Header_Get (Header resp) "Docker-Content-Digest"))];
           Body := Body resp |}
  | inl err => inl err
  end.

(** A registry that cannot be reached. *)
Definition unreachable (req : Request) : Result Response :=
  inl "dial tcp 127.0.0.1:5000: connect: connection refused".

(** A registry whose manifests carry no creation time. *)
Definition undatedRegistry (req : Request) : Result Response :=
  if String.eqb (Method req) "GET" && hasSuffix "/manifests/v1" req
  then reply 200 "sha256:1111111111" "{}"
  else appRegistry req.

(** A registry that serves schema-v2 manifests only and loses the request
    for the config blob. *)
Definition lostBlobRegistry (req : Request) : Result Response :=
  if hasSuffix "/blobs/sha256:cfg" req then inl "context deadline exceeded"
  else if String.eqb (Accept req) mediaTypeV1 then reply 404 "" "not found"
  else if String.eqb (Method req) "GET" && hasSuffix "/manifests/v1" req
  then reply 200 "sha256:1111111111" "sha256:cfg"
  else appRegistry req.

Definition client : RegistryClient :=
  NewRegistryClient "http://localhost:5000/" EmptyString EmptyString.

Definition start (answer : Request -> Result Response)
  : @World (platform answer) :=
  @Build_World (platform answer) 0 [] [].

Definition image (tag digest : string) (created : Time) : ImageInfo :=
  {| Repository := "app"; Tag := tag; Digest := digest; Created := created |}.

Definition v1 := image "v1" "sha256:1111111111" 20230101.
Definition v2 := image "v2" "sha256:2222222222" 20230601.
Definition v3 := image "v3" "sha256:3333333333" 20240101.

End Fixture.

(* ================================================================== *)
(** * Proofs *)

(* ------------------------------------------------------------------ *)
(** *** The two sorts are sorts *)

Section InsertionSort.
Context {A : Type} (less : A -> A -> bool).

Lemma insertAfter_perm x l : Permutation (x :: l) (insertAfter less x l).
Proof.
  induction l as [|y l IH]; simpl; [reflexivity|].
  destruct (less x y); [reflexivity|].
  rewrite perm_swap. now constructor.
Qed.


Lemma fold_insert_perm (ins : A -> list A -> list A) :
  (forall x l, Permutation (x :: l) (ins x l)) ->
  forall l acc, Permutation (acc ++ l) (fold_left (fun s x => ins x s) l acc).
Proof.
  intros Hins l; induction l as [|x l IH]; intros acc; simpl.
  - now rewrite app_nil_r.
  - rewrite <- IH, <- Hins. symmetry. apply Permutation_middle.
Qed.

Hypothesis less_swo : StrictWeakOrder less.

Let ordered := StronglySorted (fun x y : A => less y x = false).

Lemma insertAfter_sorted x l : ordered l -> ordered (insertAfter less x l).
Proof.
  destruct less_swo as [asym negtrans].
  induction l as [|y l IH]; simpl; intros Hl.
  - repeat constructor.
  - inversion Hl as [|? ? Hl' Hy]; subst.
    destruct (less x y) eqn:Hxy.
    + constructor; [assumption|].
      constructor; [now apply asym|].
      rewrite Forall_forall in *; intros z Hz.
      destruct (less z x) eqn:Hzx; [|reflexivity].
      destruct (negtrans _ _ y Hzx) as [H|H].
      * now rewrite (Hy z Hz) in H.
      * now rewrite (asym _ _ Hxy) in H.
    + constructor; [now apply IH|].
      rewrite Forall_forall in *; intros z Hz.
      apply (Permutation_in _ (Permutation_sym (insertAfter_perm x l))) in Hz.
      destruct Hz as [<-|Hz]; auto.
Qed.


Lemma fold_insert_sorted (ins : A -> list A -> list A) :
  (forall x l, ordered l -> ordered (ins x l)) ->
  forall l acc, ordered acc -> ordered (fold_left (fun s x => ins x s) l acc).
Proof.
  intros Hins l; induction l as [|x l IH]; intros acc Hacc; simpl; auto.
Qed.

End InsertionSort.

Lemma stableSort_laws : GoSortLaws stableSort.
Proof.
  split.
  - intros A less l. apply (fold_insert_perm _ (insertAfter_perm less) l []).
  - intros A less l Hswo.
    apply fold_insert_sorted; [apply insertAfter_sorted, Hswo | constructor].
Qed.


(* ================================================================== *)
(** ** Reasoning about runs *)

Section Runs.
Context {P : Platform} {G : GoSort} {L : GoSortLaws G}.

Notation "x <- m ;; k" := (bind m (fun x => k))
  (at level 61, m at next level, right associativity).
Notation "m ;; k" := (bind m (fun _ => k))
  (at level 61, right associativity).

Lemma bind_ret {A B} (a : A) (f : A -> M B) : bind (ret a) f = f a.
Proof. reflexivity. Qed.

Lemma runs_ret {A} (a : A) (post : A -> _ -> _ -> Prop) :
  post a [] [] -> runs (ret a) post.
Proof.
  intros H w. exists a, w, [], []. now rewrite !app_nil_r.
Qed.

Lemma runs_weaken {A} (m : M A) (post post' : A -> _ -> _ -> Prop) :
  runs m post -> (forall a ex out, post a ex out -> post' a ex out) ->
  runs m post'.
Proof.
  intros Hm Himp w. destruct (Hm w) as (a & w' & ex & out & ? & ? & ? & ?).
  exists a, w', ex, out. auto.
Qed.

Lemma runs_bind {A B} (m : M A) (f : A -> M B) mid (post : B -> _ -> _ -> Prop) :
  runs m mid ->
  (forall a ex1 out1, mid a ex1 out1 ->
     runs (f a) (fun b ex2 out2 => post b (ex1 ++ ex2) (out1 ++ out2))) ->
  runs (bind m f) post.
Proof.
  intros Hm Hf w.
  destruct (Hm w) as (a & w1 & ex1 & out1 & Em & Ex1 & Eo1 & Hmid).
  destruct (Hf a ex1 out1 Hmid w1) as (b & w2 & ex2 & out2 & Ef & Ex2 & Eo2 & Hpost).
  exists b, w2, (ex1 ++ ex2), (out1 ++ out2).
  unfold bind. rewrite Em, Ef, Ex2, Eo2, Ex1, Eo1, !app_assoc. auto.
Qed.

Lemma runs_write o : runs (write o) (fun _ ex out => ex = [] /\ out = [o]).
Proof.
  intros w. eexists tt, _, [], [o]. cbn. now rewrite app_nil_r.
Qed.

Lemma runs_Do req :
  runs (Do req)
       (fun r ex out => (exists e, r = fst (Client_Do req e)) /\
                        ex = [(req, r)] /\ out = []).
Proof.
  intros w. unfold Do. destruct (Client_Do req (env w)) as [r e] eqn:E.
  eexists r, _, [(req, r)], []. cbn. rewrite app_nil_r.
  repeat split; auto. exists (env w). now rewrite E.
Qed.

Lemma runs_Now : runs Now (fun _ ex out => ex = [] /\ out = []).
Proof.
  intros w. unfold Now. destruct (time_Now (env w)) as [t e].
  eexists t, _, [], []. cbn. now rewrite !app_nil_r.
Qed.

Lemma runs_bind_printf {B} format args (k : M B) (post : B -> _ -> _ -> Prop) :
  runs k (fun b ex out => post b ex (Printf format args :: out)) ->
  runs (printf format args ;; k) post.
Proof.
  intros Hk. eapply runs_bind; [apply runs_write|].
  intros _ ex1 out1 [-> ->]. exact Hk.
Qed.

Lemma runs_bind_Do {B} req (f : _ -> M B) (post : B -> _ -> _ -> Prop) :
  (forall e,
     runs (f (fst (Client_Do req e)))
          (fun b ex out => post b ((req, fst (Client_Do req e)) :: ex) out)) ->
  runs (bind (Do req) f) post.
Proof.
  intros Hf. eapply runs_bind; [apply runs_Do|].
  intros r ex1 out1 ([e ->] & -> & ->). apply Hf.
Qed.

Lemma runs_bind_Now {B} (f : Time -> M B) (post : B -> _ -> _ -> Prop) :
  (forall t, runs (f t) post) -> runs (bind Now f) post.
Proof.
  intros Hf. eapply runs_bind; [apply runs_Now|].
  intros t ex1 out1 [-> ->]. apply Hf.
Qed.

(* ------------------------------------------------------------------ *)
(** *** What the exchanges and the terminal show *)

Lemma resolved_app ex1 ex2 : resolved (ex1 ++ ex2) = (resolved ex1 + resolved ex2)%nat.
Proof. unfold resolved. now rewrite filter_app, length_app. Qed.

Lemma deletes_app ex1 ex2 : deletes (ex1 ++ ex2) = (deletes ex1 + deletes ex2)%nat.
Proof. unfold deletes. now rewrite filter_app, length_app. Qed.

Lemma refusals_app ex1 ex2 : refusals (ex1 ++ ex2) = (refusals ex1 + refusals ex2)%nat.
Proof. unfold refusals. now rewrite filter_app, length_app. Qed.

Lemma collect_app {B} (f : Output -> option B) out1 out2 :
  collect f (out1 ++ out2) = collect f out1 ++ collect f out2.
Proof.
  induction out1 as [|o out1 IH]; simpl; [reflexivity|].
  destruct (f o); simpl; now rewrite IH.
Qed.

Lemma Method_authenticate rc req : Method (authenticate rc req) = Method req.
Proof. unfold authenticate. now destruct (_ && _). Qed.

Lemma URL_authenticate rc req : URL (authenticate rc req) = URL req.
Proof. unfold authenticate. now destruct (_ && _). Qed.

Lemma NewRequest_inr method url req :
  NewRequest method url = inr req ->
  req = {| Method := method; URL := url; BasicAuth := None;
           Accept := EmptyString |}.
Proof.
  unfold NewRequest. destruct (NewRequest_error method url); congruence.
Qed.

Ltac run_step :=
  match goal with
  | |- runs (ret _) _ => apply runs_ret
  | |- runs (bind (printf _ _) _) _ => apply runs_bind_printf
  | |- runs (bind (Do _) _) _ => apply runs_bind_Do; intros ?; cbv beta
  | |- runs (bind Now _) _ => apply runs_bind_Now; intros ?; cbv beta
  | |- runs (match ?x with _ => _ end) _ => destruct x eqn:?
  end.

(** A request made by [makeRequest] carries the method asked for. *)
Lemma makeRequest_runs rc method url :
  runs (makeRequest rc method url)
       (fun r ex out =>
          out = [] /\
          ((ex = [] /\ exists err, r = inl err) \/
           (exists req e, Method req = method /\ URL req = url /\
                          r = fst (Client_Do req e) /\ ex = [(req, r)]))).
Proof.
  unfold makeRequest, NewRequest.
  destruct (NewRequest_error method url) as [err|].
  - apply runs_ret. split; [reflexivity|]. left. eauto.
  - eapply runs_weaken; [apply runs_Do|].
    intros r ex out ([e ->] & -> & ->). split; [reflexivity|]. right.
    eexists _, e. repeat split; cbn; now rewrite ?Method_authenticate, ?URL_authenticate.
Qed.

Lemma GetManifestDigest_runs rc repository tag :
  runs (GetManifestDigest rc repository tag)
       (fun r ex out =>
          out = [] /\ deletes ex = 0%nat /\
          match r with
          | inr digest =>
            digest <> EmptyString /\ resolved ex = 1%nat /\
            (LongDigests -> 12 <= strlen digest)
          | inl _ => resolved ex = 0%nat
          end).
Proof.
  unfold GetManifestDigest.
  eapply runs_bind; [apply makeRequest_runs|].
  intros r ex1 out1 (-> & [[-> [err ->]] | (req & e & Hm & _ & -> & ->)]).
  - apply runs_ret. auto.
  - assert (Hnot : deletes [(req, fst (Client_Do req e))] = 0%nat).
    { unfold deletes, isDelete; cbn. now rewrite Hm. }
    destruct (fst (Client_Do req e)) as [err|resp] eqn:E.
    + apply runs_ret. split; [reflexivity|]. split; [assumption|].
      unfold resolved, digestResolved; cbn. now rewrite andb_false_r.
    + destruct (StatusCode resp =? StatusOK) eqn:Hs; cbn [negb].
      * destruct (String.eqb _ EmptyString) eqn:Hd.
        -- apply runs_ret. split; [reflexivity|]. split; [assumption|].
           unfold resolved, digestResolved; cbn. rewrite Hs, Hd; cbn.
           now rewrite andb_false_r.
        -- apply runs_ret. split; [reflexivity|]. split; [assumption|].
           apply String.eqb_neq in Hd. split; [assumption|]. split.
           ++ unfold resolved, digestResolved; cbn. rewrite Hm, Hs.
              apply String.eqb_neq in Hd. now rewrite Hd.
           ++ intros HL. specialize (HL req e). rewrite E in HL.
              cbn in HL. now destruct HL.
      * apply runs_ret. split; [reflexivity|]. split; [assumption|].
        unfold resolved, digestResolved; cbn. rewrite Hs; cbn.
        now rewrite andb_false_r.
Qed.

Lemma createdFromV2_runs rc repository resp :
  runs (createdFromV2 rc repository resp)
       (fun _ ex out => out = [] /\ resolved ex = 0%nat /\ deletes ex = 0%nat).
Proof.
  unfold createdFromV2.
  repeat first
    [ apply runs_ret; auto
    | match goal with
      | |- runs (bind (makeRequest _ _ _) _) _ =>
        eapply runs_bind; [apply makeRequest_runs|];
        intros r ex1 out1 (-> & [[-> [err ->]] | (req & e & Hm & _ & -> & ->)])
      | |- runs (match ?x with _ => _ end) _ => destruct x eqn:?
      end ];
  unfold resolved, deletes, digestResolved, isDelete; cbn; now rewrite Hm.
Qed.

Lemma GetImageCreated_runs rc repository tag :
  runs (GetImageCreated rc repository tag)
       (fun _ ex out => silent out /\ resolved ex = 0%nat /\ deletes ex = 0%nat).
Proof.
  unfold GetImageCreated.
  repeat first
    [ apply runs_ret; repeat split; reflexivity
    | eapply runs_bind; [apply createdFromV2_runs|];
      intros c ex1 out1 (-> & Hr & Hd); cbv beta
    | run_step ];
  repeat match goal with
         | H : NewRequest _ _ = inr _ |- _ => apply NewRequest_inr in H; subst
         end;
  unfold resolved, deletes, digestResolved, isDelete in *; cbn;
  rewrite ?Method_authenticate; cbn;
  rewrite ?filter_app, ?length_app, ?app_nil_r; cbn;
  (repeat split; try reflexivity; lia).
Qed.

Lemma guidance_runs :
  runs (forEach deleteDisabledGuidance (fun line => printf line []))
       (fun _ ex out => ex = [] /\ silent out).
Proof.
  unfold deleteDisabledGuidance; cbn [forEach].
  repeat run_step. repeat split; reflexivity.
Qed.

Lemma deleteFailure_runs status body :
  runs (deleteFailure status body) (fun _ ex out => ex = [] /\ silent out).
Proof.
  unfold deleteFailure.
  repeat first
    [ apply runs_ret; repeat split; reflexivity
    | eapply runs_bind; [apply guidance_runs|];
      intros _ ex1 out1 (-> & Hs); cbv beta
    | run_step ].
  rewrite !app_nil_r. auto.
Qed.

Lemma DeleteManifest_runs rc repository digest :
  runs (DeleteManifest rc repository digest)
       (fun r ex out =>
          silent out /\ resolved ex = 0%nat /\
          match r with
          | Some _ =>
            (refusals ex +
             (if deleteRejected rc repository digest then 1 else 0) = 1)%nat
          | None =>
            refusals ex = 0%nat /\ deleteRejected rc repository digest = false
          end).
Proof.
  unfold DeleteManifest, deleteRejected.
  repeat first
    [ apply runs_ret; repeat split; reflexivity
    | eapply runs_bind; [apply deleteFailure_runs|];
      intros err ex1 out1 (-> & Hs); cbv beta
    | run_step ];
  repeat match goal with
         | H : NewRequest _ _ = inr _ |- _ => apply NewRequest_inr in H; subst
         end;
  unfold resolved, refusals, digestResolved, deleteRefused in *; cbn;
  rewrite ?Method_authenticate; cbn;
  repeat match goal with H : _ = _ |- _ => rewrite H end; cbn;
  rewrite ?app_nil_r; auto; repeat split; reflexivity.
Qed.

(* ------------------------------------------------------------------ *)
(** *** The deletion loop *)

Lemma sliceTo_long s : 12 <= strlen s -> sliceTo s 12 = ret (substring 0 12 s).
Proof.
  intros H. unfold sliceTo, string_to, lift, ret.
  destruct (Z.leb_spec 12 (strlen s)); [reflexivity | lia].
Qed.

Lemma sliceTo_short s w :
  strlen s < 12 ->
  sliceTo s 12 w =
  (Panic ("runtime error: slice bounds out of range [:12] with length " +++
          itoa (strlen s)), w).
Proof.
  intros H. unfold sliceTo, string_to, lift.
  destruct (Z.leb_spec 12 (strlen s)); [lia | reflexivity].
Qed.

Lemma deleteImage_runs rc img :
  longDigest img ->
  runs (deleteImage rc img)
       (fun _ ex out =>
          started out = [] /\ resolved ex = 0%nat /\
          attempted out = [imageKey img] /\
          exists r, reported out = [(imageKey img, r)] /\
            (failures [(imageKey img, r)] =
             refusals ex + rejections rc [img])%nat).
Proof.
  intros Hlong. unfold deleteImage. rewrite (sliceTo_long _ Hlong).
  rewrite bind_ret.
  apply runs_bind_printf.
  eapply runs_bind; [apply DeleteManifest_runs|].
  intros r ex1 out1 ((Hs & Ha & Hr) & Hres & Hfail); cbv beta.
  unfold rejections; cbn [filter].
  destruct r as [err|]; (eapply runs_weaken; [apply runs_write|]);
    intros _ ex2 out2 [-> ->]; rewrite ?app_nil_r;
    unfold started, attempted, reported in *;
    cbn [collect List.app]; rewrite !collect_app, ?Hs, ?Ha, ?Hr;
    (split; [reflexivity|]); (split; [assumption|]);
    (split; [reflexivity|]).
  - exists (Some err). split; [reflexivity|].
    destruct (deleteRejected _ _ _); cbn in *; lia.
  - exists None. split; [reflexivity|].
    destruct Hfail as [-> ->]. reflexivity.
Qed.

Lemma deleteImages_runs rc imgs :
  Forall longDigest imgs ->
  runs (forEach imgs (deleteImage rc))
       (fun _ ex out =>
          started out = [] /\ resolved ex = 0%nat /\
          attempted out = map imageKey imgs /\
          map fst (reported out) = map imageKey imgs /\
          (failures (reported out) = refusals ex + rejections rc imgs)%nat).
Proof.
  induction 1 as [|img imgs Himg Himgs IH]; cbn [forEach].
  - apply runs_ret. repeat split; reflexivity.
  - eapply runs_bind; [apply (deleteImage_runs rc img Himg)|].
    intros _ ex1 out1 (Hs1 & Hr1 & Ha1 & r & Hrep1 & Hf1); cbv beta.
    eapply runs_weaken; [apply IH|].
    intros _ ex2 out2 (Hs2 & Hr2 & Ha2 & Hrep2 & Hf2).
    unfold started, attempted, reported in *.
    rewrite !collect_app, resolved_app, refusals_app, Hs1, Hs2, Hr1, Hr2, Ha1, Ha2,
      Hrep1, map_app, Hrep2.
    repeat split; try reflexivity.
    unfold failures in *. rewrite filter_app, length_app, Hf1, Hf2.
    unfold rejections. cbn [filter].
    destruct (deleteRejected _ _ _); cbn; lia.
Qed.

(* ------------------------------------------------------------------ *)
(** *** Collecting the images *)

Lemma silent_app out1 out2 : silent out1 -> silent out2 -> silent (out1 ++ out2).
Proof.
  unfold silent, started, attempted, reported.
  intros (H1 & H2 & H3) (H4 & H5 & H6).
  now rewrite !collect_app, H1, H2, H3, H4, H5, H6.
Qed.

Lemma printf_Now_runs format args :
  runs (printf format args ;; Now)
       (fun _ ex out => ex = [] /\ out = [Printf format args]).
Proof.
  apply runs_bind_printf. eapply runs_weaken; [apply runs_Now|].
  now intros t ex out [-> ->].
Qed.

Lemma resolveTag_runs rc repository images tag :
  runs (resolveTag rc repository images tag)
       (fun images' ex out =>
          silent out /\ deletes ex = 0%nat /\
          exists new, images' = images ++ new /\
            List.length new = resolved ex /\
            Forall (resolvedFrom repository [tag]) new).
Proof.
  unfold resolveTag.
  eapply runs_bind; [apply GetManifestDigest_runs|].
  intros d ex1 out1 (-> & Hf1 & Hd); cbv beta.
  destruct d as [err|digest].
  - apply runs_bind_printf, runs_ret. rewrite !app_nil_r.
    split; [repeat split; reflexivity|]. split; [assumption|].
    exists []. rewrite app_nil_r, Hd. auto.
  - destruct Hd as (Hne & Hres & Hlong).
    eapply runs_bind; [apply GetImageCreated_runs|].
    intros c ex2 out2 (Hs2 & Hr2 & Hf2); cbv beta.
    eapply runs_bind with
      (mid := fun _ ex out => ex = [] /\ silent out).
    { destruct c as [err|created].
      - eapply runs_weaken; [apply printf_Now_runs|].
        intros t ex out [-> ->]. split; [reflexivity|].
        repeat split; reflexivity.
      - apply runs_ret. split; [reflexivity|]. repeat split; reflexivity. }
    intros created ex3 out3 [-> Hs3]; cbv beta.
    apply runs_bind_printf, runs_ret. rewrite !app_nil_r. cbn [List.app].
    split.
    { apply silent_app; [assumption|].
      apply silent_app; [assumption|]. repeat split; reflexivity. }
    split; [rewrite deletes_app; lia|].
    eexists [_]. split; [reflexivity|].
    split; [rewrite resolved_app; cbn; lia|].
    constructor; [|constructor].
    unfold resolvedFrom, longDigest; cbn. auto.
Qed.

Lemma resolveTags_runs rc repository tags : forall images,
  runs (resolveTags rc repository tags images)
       (fun images' ex out =>
          silent out /\ deletes ex = 0%nat /\
          exists new, images' = images ++ new /\
            List.length new = resolved ex /\
            Forall (resolvedFrom repository tags) new).
Proof.
  induction tags as [|tag tags IH]; intros images; cbn [resolveTags].
  - apply runs_ret. split; [repeat split; reflexivity|].
    split; [reflexivity|]. exists []. now rewrite app_nil_r.
  - eapply runs_bind; [apply resolveTag_runs|].
    intros images1 ex1 out1 (Hs1 & Hf1 & new1 & -> & Hn1 & Hall1); cbv beta.
    eapply runs_weaken; [apply IH|].
    intros images2 ex2 out2 (Hs2 & Hf2 & new2 & -> & Hn2 & Hall2).
    split; [now apply silent_app|].
    split; [rewrite deletes_app; lia|].
    exists (new1 ++ new2). rewrite app_assoc. split; [reflexivity|].
    split; [rewrite length_app, resolved_app; lia|].
    apply Forall_app; split.
    + eapply Forall_impl; [|exact Hall1].
      intros img (? & [Htag|[]] & ? & ?). repeat split; cbn; auto.
    + eapply Forall_impl; [|exact Hall2].
      intros img (? & ? & ? & ?). repeat split; cbn; auto.
Qed.

Lemma report_runs keepLast images : forall i,
  runs (forEachIndexed i images (reportImage keepLast))
       (fun _ ex out => ex = [] /\ silent out).
Proof.
  induction images as [|img images IH]; intros i; cbn [forEachIndexed].
  - apply runs_ret. repeat split; reflexivity.
  - unfold reportImage at 1. apply runs_bind_printf.
    eapply runs_weaken; [apply IH|].
    intros _ ex out [-> Hs]. split; [reflexivity|].
    apply (silent_app [_]); [repeat split; reflexivity | assumption].
Qed.

(* ------------------------------------------------------------------ *)
(** *** The retention plan *)

Lemma in_skipn_in {A} (x : A) n l : In x (skipn n l) -> In x l.
Proof.
  intros H. rewrite <- (firstn_skipn n l). apply in_or_app. now right.
Qed.

Lemma in_firstn_in {A} (x : A) n l : In x (firstn n l) -> In x l.
Proof.
  intros H. rewrite <- (firstn_skipn n l). apply in_or_app. now left.
Qed.

Lemma sorted_app_inv {A} (R : A -> A -> Prop) l1 l2 :
  StronglySorted R (l1 ++ l2) ->
  forall a b, In a l1 -> In b l2 -> R a b.
Proof.
  induction l1 as [|x l1 IH]; cbn; intros Hs a b Ha Hb; [contradiction|].
  inversion Hs as [|? ? Hs' Hx]; subst.
  destruct Ha as [<-|Ha].
  - rewrite Forall_forall in Hx. apply Hx, in_or_app. now right.
  - now apply IH.
Qed.

Lemma newerFirst_swo : StrictWeakOrder newerFirst.
Proof.
  unfold newerFirst, After. split.
  - intros x y H. apply Z.ltb_lt in H. apply Z.ltb_ge. lia.
  - intros x y z H. apply Z.ltb_lt in H.
    destruct (Z.ltb_spec (Created z) (Created x)); [now left|].
    right. apply Z.ltb_lt. lia.
Qed.

Lemma sortImages_perm collected : Permutation collected (sortImages collected).
Proof. apply sort_Slice_perm. Qed.

Lemma sortImages_len collected : len (sortImages collected) = len collected.
Proof.
  unfold len. now rewrite <- (Permutation_length (sortImages_perm collected)).
Qed.

Lemma sortImages_sorted collected :
  StronglySorted (fun a b => Created b <= Created a) (sortImages collected).
Proof.
  pose proof (sort_Slice_sorted ImageInfo newerFirst collected newerFirst_swo) as H.
  fold (sortImages collected) in H.
  induction H as [|a l Hl IH Ha]; constructor; [assumption|].
  eapply Forall_impl; [|exact Ha].
  intros b Hb. unfold newerFirst, After in Hb. now apply Z.ltb_ge in Hb.
Qed.

Lemma Delete_nonneg collected keepLast :
  0 <= keepLast ->
  Delete collected keepLast =
  Return (skipn (Z.to_nat keepLast) (sortImages collected)).
Proof.
  intros Hk. unfold Delete, slice_from.
  destruct (Z.gtb_spec (len (sortImages collected)) keepLast) as [Hlt|Hge].
  - destruct (Z.leb_spec 0 keepLast); [|lia].
    destruct (Z.leb_spec keepLast (len (sortImages collected))); [|lia].
    reflexivity.
  - rewrite skipn_all2; [reflexivity|]. unfold len in Hge. lia.
Qed.

Lemma Delete_negative collected keepLast :
  keepLast < 0 ->
  Delete collected keepLast =
  Panic ("runtime error: slice bounds out of range [" +++ itoa keepLast +++ ":]").
Proof.
  intros Hk. unfold Delete, slice_from.
  destruct (Z.gtb_spec (len (sortImages collected)) keepLast) as [Hlt|Hge].
  - destruct (Z.leb_spec 0 keepLast); [lia|]. cbn.
    destruct (Z.ltb_spec keepLast 0); [|lia]. reflexivity.
  - unfold len in Hge. lia.
Qed.

Lemma Keep_Delete_split collected keepLast :
  Keep collected keepLast ++ skipn (Z.to_nat keepLast) (sortImages collected) =
  sortImages collected.
Proof. apply firstn_skipn. Qed.

(** [deleteOld] deletes what the plan says, in the plan's order. *)
Lemma deleteOld_plan rc collected keepLast :
  0 <= keepLast ->
  Forall longDigest collected ->
  exists toDelete,
    Delete collected keepLast = Return toDelete /\
    runs (deleteOld rc (sortImages collected) keepLast)
         (fun _ ex out =>
            started out = [] /\ resolved ex = 0%nat /\
            attempted out = map imageKey toDelete /\
            map fst (reported out) = map imageKey toDelete /\
            (failures (reported out) = refusals ex + rejections rc toDelete)%nat).
Proof.
  intros Hk Hlong. eexists. split; [now apply Delete_nonneg|].
  unfold deleteOld, sliceFrom, slice_from.
  destruct (Z.gtb_spec (len (sortImages collected)) keepLast) as [Hlt|Hge].
  - destruct (Z.leb_spec 0 keepLast); [|lia].
    destruct (Z.leb_spec keepLast (len (sortImages collected))); [|lia].
    cbn [andb]. change (lift (Return ?x)) with (ret x). rewrite bind_ret.
    apply runs_bind_printf.
    eapply runs_weaken.
    + apply deleteImages_runs.
      rewrite Forall_forall in *. intros img Himg.
      apply Hlong. apply in_skipn_in in Himg.
      now apply (Permutation_in _ (Permutation_sym (sortImages_perm collected))).
    + intros _ ex out (Hs & Hr & Ha & Hrep & Hf).
      unfold started, attempted, reported in *; cbn [collect]. auto.
  - rewrite skipn_all2 by (unfold len in Hge; lia).
    apply runs_ret. repeat split; reflexivity.
Qed.

Lemma retain_runs rc collected keepLast :
  0 <= keepLast ->
  Forall longDigest collected ->
  exists toDelete,
    Delete collected keepLast = Return toDelete /\
    runs (retain rc collected keepLast)
         (fun r ex out =>
            r = None /\ started out = [] /\ resolved ex = 0%nat /\
            attempted out = map imageKey toDelete /\
            map fst (reported out) = map imageKey toDelete /\
            (failures (reported out) = refusals ex + rejections rc toDelete)%nat).
Proof.
  intros Hk Hlong.
  destruct (deleteOld_plan rc collected keepLast Hk Hlong) as (toDelete & HD & Hrun).
  exists toDelete. split; [assumption|].
  unfold retain. apply runs_bind_printf.
  eapply runs_bind; [apply report_runs|].
  intros _ ex1 out1 (-> & Hs1 & Ha1 & Hr1); cbv beta.
  eapply runs_bind; [apply Hrun|].
  intros _ ex2 out2 (Hs2 & Hres2 & Ha2 & Hrep2 & Hf2); cbv beta.
  apply runs_ret. rewrite !app_nil_r. cbn [List.app].
  unfold started, attempted, reported in *; cbn [collect].
  rewrite !collect_app, Hs1, Ha1, Hr1, Hs2, Ha2. cbn [List.app].
  repeat split; auto.
Qed.

(* ------------------------------------------------------------------ *)
(** *** A repository, and all of them *)

Lemma GetTags_runs rc repository :
  runs (GetTags rc repository)
       (fun _ ex out => out = [] /\ resolved ex = 0%nat /\ deletes ex = 0%nat).
Proof.
  unfold GetTags.
  eapply runs_bind; [apply makeRequest_runs|].
  intros r ex1 out1 (-> & [[-> [err ->]] | (req & e & Hm & _ & -> & ->)]).
  - apply runs_ret. auto.
  - assert (resolved [(req, fst (Client_Do req e))] = 0%nat /\
            deletes [(req, fst (Client_Do req e))] = 0%nat) as [H1 H2].
    { unfold resolved, deletes, digestResolved, isDelete; cbn.
      now rewrite Hm. }
    repeat first [ apply runs_ret; rewrite ?app_nil_r; auto | run_step ].
Qed.

Lemma GetRepositories_runs rc :
  runs (GetRepositories rc) (fun _ ex out => out = []).
Proof.
  unfold GetRepositories.
  eapply runs_bind; [apply makeRequest_runs|].
  intros r ex1 out1 (-> & _).
  repeat first [ apply runs_ret; reflexivity | run_step ].
Qed.

Lemma CleanupRepository_runs rc repository keepLast :
  LongDigests -> 0 <= keepLast ->
  runs (CleanupRepository rc repository keepLast)
       (fun _ ex out => started out = [repository]).
Proof.
  intros HL Hk. unfold CleanupRepository.
  apply runs_bind_printf.
  eapply runs_bind; [apply GetTags_runs|].
  intros t ex1 out1 (-> & _); cbv beta.
  destruct t as [err|tags]; [now apply runs_ret|].
  destruct (len tags <=? keepLast).
  - apply runs_bind_printf, runs_ret. reflexivity.
  - eapply runs_bind; [apply resolveTags_runs|].
    intros images ex2 out2 ((Hs & _) & _ & new & -> & _ & Hall); cbv beta.
    destruct (retain_runs rc ([] ++ new) keepLast Hk) as (toDelete & _ & Hrun).
    { eapply Forall_impl; [|exact Hall]. intros img (_ & _ & _ & H). auto. }
    eapply runs_weaken; [apply Hrun|].
    intros r ex3 out3 (_ & Hs3 & _).
    unfold started in *; cbn [List.app collect startedRepo].
    rewrite String.eqb_refl, collect_app, Hs, Hs3. reflexivity.
Qed.

Lemma cleanupOne_runs client keepLast repo :
  LongDigests -> 0 <= keepLast ->
  runs (cleanupOne client keepLast repo)
       (fun _ ex out => started out = [repo]).
Proof.
  intros HL Hk. unfold cleanupOne.
  eapply runs_bind; [now apply CleanupRepository_runs|].
  intros r ex1 out1 Hs; cbv beta.
  destruct r as [err|].
  - eapply runs_weaken; [apply runs_write|].
    intros _ ex out [-> ->]. unfold started in *.
    rewrite collect_app, Hs. reflexivity.
  - apply runs_ret. now rewrite app_nil_r.
Qed.

Lemma cleanupAll_runs client keepLast repositories :
  LongDigests -> 0 <= keepLast ->
  runs (forEach repositories (cleanupOne client keepLast))
       (fun _ ex out => started out = repositories).
Proof.
  intros HL Hk. induction repositories as [|repo rest IH]; cbn [forEach].
  - now apply runs_ret.
  - eapply runs_bind; [now apply cleanupOne_runs|].
    intros u ex1 out1 Hs; cbv beta in *.
    eapply runs_weaken; [apply IH|].
    intros u2 ex2 out2 Hs2. cbv beta in *. unfold started in *.
    now rewrite collect_app, Hs, Hs2.
Qed.

End Runs.

(* ================================================================== *)
(** ** The retention plan *)

Section Plan.
Context {P : Platform} {G : GoSort} {L : GoSortLaws G}.

Notation "m ;; k" := (bind m (fun _ => k))
  (at level 61, right associativity).

Lemma deleteOld_more rc images keepLast :
  0 <= keepLast -> keepLast < len images ->
  exists line,
    deleteOld rc images keepLast =
    (write line ;; forEach (skipn (Z.to_nat keepLast) images) (deleteImage rc)).
Proof.
  intros Hk Hlen. eexists. unfold deleteOld, sliceFrom, slice_from.
  destruct (Z.gtb_spec (len images) keepLast); [|lia].
  destruct (Z.leb_spec 0 keepLast); [|lia].
  destruct (Z.leb_spec keepLast (len images)); [|lia].
  reflexivity.
Qed.

Lemma deleteOld_few rc images keepLast :
  len images <= keepLast -> deleteOld rc images keepLast = ret tt.
Proof.
  intros Hlen. unfold deleteOld.
  destruct (Z.gtb_spec (len images) keepLast); [lia | reflexivity].
Qed.

Lemma deleteOld_negative rc images keepLast w :
  keepLast < 0 ->
  deleteOld rc images keepLast w =
  (Panic ("runtime error: slice bounds out of range [" +++ itoa keepLast +++ ":]"),
   w).
Proof.
  intros Hk. unfold deleteOld, sliceFrom, slice_from, bind, lift.
  destruct (Z.gtb_spec (len images) keepLast); [|unfold len in *; lia].
  destruct (Z.leb_spec 0 keepLast); [lia|]. cbn.
  destruct (Z.ltb_spec keepLast 0); [reflexivity | lia].
Qed.

(** C2. For every image list of length n > keepLast, with keepLast
    positive, the plan deletes exactly n - keepLast images and keeps exactly
    keepLast, every kept image was created no earlier than every deleted
    one, the two parts together are the images collected, and the deletion
    loop of [CleanupRepository] runs over exactly the images to delete. *)
Theorem plan_keeps_the_newest (collected : list ImageInfo) (keepLast : Z) :
  0 < keepLast -> keepLast < len collected ->
  exists toDelete,
    Delete collected keepLast = Return toDelete /\
    len toDelete = len collected - keepLast /\
    len (Keep collected keepLast) = keepLast /\
    Permutation collected (Keep collected keepLast ++ toDelete) /\
    (forall kept deleted,
        In kept (Keep collected keepLast) -> In deleted toDelete ->
        Created kept >= Created deleted) /\
    (exists line, forall rc,
        deleteOld rc (sortImages collected) keepLast =
        (write line ;; forEach toDelete (deleteImage rc))).
Proof.
  intros Hk Hlen.
  exists (skipn (Z.to_nat keepLast) (sortImages collected)).
  pose proof (sortImages_len collected) as Hsl.
  split; [apply Delete_nonneg; lia|].
  split; [unfold len in *; rewrite length_skipn; lia|].
  split; [unfold Keep, len in *; rewrite length_firstn; lia|].
  split; [rewrite Keep_Delete_split; apply sortImages_perm|].
  split.
  - intros kept deleted Hkept Hdel.
    pose proof (sortImages_sorted collected) as Hs.
    rewrite <- (Keep_Delete_split collected keepLast) in Hs.
    pose proof (sorted_app_inv _ _ _ Hs kept deleted Hkept Hdel) as Hle.
    cbv beta in Hle. lia.
  - eexists. intros rc.
    unfold deleteOld, sliceFrom, slice_from.
    destruct (Z.gtb_spec (len (sortImages collected)) keepLast); [|lia].
    destruct (Z.leb_spec 0 keepLast); [|lia].
    destruct (Z.leb_spec keepLast (len (sortImages collected))); [|lia].
    rewrite Hsl. reflexivity.
Qed.

(** C4, as the code has it.  With keepLast = 0 and a non-empty image list
    the retention step keeps nothing and its deletion loop runs over every
    image collected; with a negative keepLast the slice expression
    [images[keepLast:]] panics, for every image list. *)
Theorem keepLast_zero_deletes_everything (collected : list ImageInfo) :
  collected <> [] ->
  Delete collected 0 = Return (sortImages collected) /\
  Keep collected 0 = [] /\
  Permutation collected (sortImages collected) /\
  (exists line, forall rc,
      deleteOld rc (sortImages collected) 0 =
      (write line ;; forEach (sortImages collected) (deleteImage rc))) /\
  (forall keepLast rc w, keepLast < 0 ->
      Delete collected keepLast =
      Panic ("runtime error: slice bounds out of range [" +++ itoa keepLast +++
             ":]") /\
      deleteOld rc (sortImages collected) keepLast w =
      (Panic ("runtime error: slice bounds out of range [" +++ itoa keepLast +++
              ":]"), w)).
Proof.
  intros Hne.
  split; [now rewrite Delete_nonneg|].
  split; [reflexivity|].
  split; [apply sortImages_perm|].
  split.
  - eexists. intros rc.
    unfold deleteOld, sliceFrom, slice_from.
    pose proof (sortImages_len collected) as Hsl.
    destruct (Z.gtb_spec (len (sortImages collected)) 0) as [|Hle].
    + destruct (Z.leb_spec 0 (len (sortImages collected))); [|lia].
      reflexivity.
    + destruct collected; [congruence|]. unfold len in *. cbn in *. lia.
  - intros keepLast rc w Hk.
    split; [now apply Delete_negative | now apply deleteOld_negative].
Qed.


End Plan.

(* ================================================================== *)
(** ** The run of a repository *)

Section Orchestration.
Context {P : Platform} {G : GoSort} {L : GoSortLaws G}.

Notation "m ;; k" := (bind m (fun _ => k))
  (at level 61, right associativity).

Lemma printed_nil w : printed w [] = w.
Proof. destruct w; unfold printed; cbn. now rewrite app_nil_r. Qed.

Lemma printed_printed w l1 l2 : printed (printed w l1) l2 = printed w (l1 ++ l2).
Proof. unfold printed; cbn. now rewrite app_assoc. Qed.

Lemma write_printed o w : write o w = (Return tt, printed w [o]).
Proof. reflexivity. Qed.

Lemma report_printed keepLast images : forall i w,
  exists lines,
    forEachIndexed i images (reportImage keepLast) w = (Return tt, printed w lines).
Proof.
  induction images as [|img images IH]; intros i w; cbn [forEachIndexed].
  - exists []. now rewrite printed_nil.
  - unfold bind, reportImage at 1, printf. rewrite write_printed.
    destruct (IH (i + 1) (printed w [Printf "    %d. %s:%s (%s) - %s\n"
        [D_ (i + 1); S_ (Repository img); S_ (Tag img);
         T_ (Created img) layout;
         S_ (if i >=? keepLast then "удалить" else "сохранить")]]))
      as [lines ->].
    eexists. now rewrite printed_printed.
Qed.

Lemma forEach_app {A} (body : A -> M unit) l1 l2 w :
  forEach (l1 ++ l2) body w = (forEach l1 body ;; forEach l2 body) w.
Proof.
  revert w. induction l1 as [|x l1 IH]; intros w; cbn [forEach List.app].
  - reflexivity.
  - unfold bind. destruct (body x w) as [[u| |] w1]; [|reflexivity..].
    rewrite IH. reflexivity.
Qed.

Lemma CleanupRepository_phases rc repository keepLast w tags w1 images w2 :
  GetTags rc repository (entered repository w) = (Return (inr tags), w1) ->
  keepLast < len tags ->
  resolveTags rc repository tags [] w1 = (Return images, w2) ->
  CleanupRepository rc repository keepLast w = retain rc images keepLast w2.
Proof.
  intros Ht Hlen Hr. unfold CleanupRepository, bind at 1.
  change (printf "Обработка репозитория: %s\n" [S_ repository] w)
    with (Return tt, entered repository w).
  cbv iota beta. unfold bind at 1. rewrite Ht.
  destruct (Z.leb_spec (len tags) keepLast); [lia|].
  unfold bind at 1. now rewrite Hr.
Qed.

(** C3. When at most keepLast images were collected the plan deletes
    nothing: [Delete] is empty and the retention step returns having only
    printed lines, without a request to the registry.  The same holds one
    step earlier, when the repository has at most keepLast tags:
    [CleanupRepository] returns right after listing them. *)
Theorem few_images_nothing_deleted (collected : list ImageInfo) (keepLast : Z) :
  len collected <= keepLast ->
  Delete collected keepLast = Return [] /\
  (forall rc w, exists lines,
      retain rc collected keepLast w = (Return None, printed w lines)) /\
  (forall rc repository w tags w1,
      GetTags rc repository (entered repository w) = (Return (inr tags), w1) ->
      len tags <= keepLast ->
      exists line,
        CleanupRepository rc repository keepLast w =
        (Return None, printed w1 [line])).
Proof.
  intros Hlen. pose proof (sortImages_len collected) as Hsl.
  split; [|split].
  - unfold Delete.
    destruct (Z.gtb_spec (len (sortImages collected)) keepLast); [lia|reflexivity].
  - intros rc w. unfold retain, bind at 1, printf. rewrite write_printed.
    unfold bind at 1.
    destruct (report_printed keepLast (sortImages collected) 0
                (printed w [Printf "  Образы отсортированы по времени создания (новые первыми):\n" []]))
      as [lines ->].
    rewrite deleteOld_few by lia.
    eexists. cbn. rewrite printed_printed. reflexivity.
  - intros rc repository w tags w1 Ht Htags.
    unfold CleanupRepository, bind at 1.
    change (printf "Обработка репозитория: %s\n" [S_ repository] w)
      with (Return tt, entered repository w).
    cbv iota beta. unfold bind at 1. rewrite Ht.
    destruct (Z.leb_spec (len tags) keepLast); [|lia].
    eexists. reflexivity.
Qed.

Lemma resolveTag_skips rc repository images tag w err w1 :
  GetManifestDigest rc repository tag w = (Return (inl err), w1) ->
  exists line,
    resolveTag rc repository images tag w = (Return images, printed w1 [line]).
Proof.
  intros Hd. unfold resolveTag, bind at 1. rewrite Hd.
  eexists. reflexivity.
Qed.

(** C6. Collecting the images of a repository always returns: a tag whose
    digest lookup fails is passed over (a warning is printed and the images
    collected so far are left as they are) and the loop goes on.  The images
    collected are as many as the digest lookups that succeeded, and for a
    retention count that is not negative the kept and the deleted images
    together are exactly that many. *)
Theorem plan_covers_resolved_images
    (rc : RegistryClient) (repository : string) (tags : list string)
    (keepLast : Z) (w : World) :
  0 <= keepLast ->
  (exists images w' ex out,
      resolveTags rc repository tags [] w = (Return images, w') /\
      exchanges w' = exchanges w ++ ex /\
      stdout w' = stdout w ++ out /\
      List.length images = resolved ex /\
      Forall (fun img => In (Tag img) tags /\ Digest img <> EmptyString)
             images /\
      exists toDelete,
        Delete images keepLast = Return toDelete /\
        (List.length (Keep images keepLast) + List.length toDelete
         = resolved ex)%nat) /\
  (forall images tag w0 err w1,
      GetManifestDigest rc repository tag w0 = (Return (inl err), w1) ->
      exists line,
        resolveTag rc repository images tag w0 =
        (Return images, printed w1 [line])).
Proof.
  intros Hk. split; [|intros; eapply resolveTag_skips; eassumption].
  destruct (resolveTags_runs rc repository tags [] w)
    as (images & w' & ex & out & Hrun & Hex & Hout & _ & _ & new & -> & Hn & Hall).
  exists ([] ++ new), w', ex, out. cbn [List.app] in *.
  repeat (split; [assumption|]).
  split.
  - eapply Forall_impl; [|exact Hall]. intros img (_ & ? & ? & _). auto.
  - eexists. split; [now apply Delete_nonneg|].
    rewrite <- length_app, Keep_Delete_split, <- Hn.
    symmetry. apply Permutation_length, sortImages_perm.
Qed.

(** C7. A deletion that fails does not stop anything.  Over images whose
    digests have at least twelve bytes the deletion loop always returns; it
    announces every image and reports on every image, in order, and the
    failure reports are as many as the deletions that failed (refused by the
    registry, lost in transport, or never sent because the URL was
    rejected).  And when the registry only sends such digests, the loop of
    [main] over the repositories returns having entered every repository,
    in order, for every retention count that is not negative. *)
Theorem deletion_failures_are_contained :
  (forall rc imgs,
      Forall longDigest imgs ->
      runs (forEach imgs (deleteImage rc))
           (fun _ ex out =>
              attempted out = map imageKey imgs /\
              map fst (reported out) = map imageKey imgs /\
              (failures (reported out) = refusals ex + rejections rc imgs)%nat)) /\
  (LongDigests ->
   forall client keepLast repositories,
      0 <= keepLast ->
      runs (forEach repositories (cleanupOne client keepLast))
           (fun _ ex out => started out = repositories)).
Proof.
  split.
  - intros rc imgs Hlong.
    eapply runs_weaken; [now apply deleteImages_runs|].
    intros _ ex out (_ & _ & ? & ? & ?). auto.
  - intros HL client keepLast repositories Hk. now apply cleanupAll_runs.
Qed.

Lemma deleteImage_short rc img w :
  strlen (Digest img) < 12 ->
  deleteImage rc img w =
  (Panic ("runtime error: slice bounds out of range [:12] with length " +++
          itoa (strlen (Digest img))), w).
Proof.
  intros Hshort. unfold deleteImage, bind at 1.
  now rewrite sliceTo_short.
Qed.

Lemma deleteImages_short rc pre img post w :
  Forall longDigest pre -> strlen (Digest img) < 12 ->
  exists w1,
    forEach pre (deleteImage rc) w = (Return tt, w1) /\
    forEach (pre ++ img :: post) (deleteImage rc) w =
    (Panic ("runtime error: slice bounds out of range [:12] with length " +++
            itoa (strlen (Digest img))), w1).
Proof.
  intros Hpre Hshort.
  destruct (deleteImages_runs rc pre Hpre w) as ([] & w1 & _ & _ & Hrun & _).
  exists w1. split; [assumption|].
  rewrite forEach_app. unfold bind at 1. rewrite Hrun.
  cbn [forEach]. unfold bind at 1. now rewrite deleteImage_short.
Qed.

(** C9. Let the images to delete be [pre ++ img :: post], where the digests
    in [pre] have at least twelve bytes and the digest of [img] has fewer.
    Then [CleanupRepository] panics on the slice [img.Digest[:12]]: after
    the images were collected it only prints, deletes the images of [pre],
    and stops there, before any request for [img].  All that
    [GetManifestDigest] promises of a digest is that it is not empty. *)
Theorem short_digest_panics
    (rc : RegistryClient) (repository : string) (keepLast : Z)
    (w w1 w2 : World) (tags : list string) (images pre post : list ImageInfo)
    (img : ImageInfo) :
  GetTags rc repository (entered repository w) = (Return (inr tags), w1) ->
  keepLast < len tags ->
  resolveTags rc repository tags [] w1 = (Return images, w2) ->
  Delete images keepLast = Return (pre ++ img :: post) ->
  Forall longDigest pre ->
  strlen (Digest img) < 12 ->
  (exists lines w3,
      forEach pre (deleteImage rc) (printed w2 lines) = (Return tt, w3) /\
      CleanupRepository rc repository keepLast w =
      (Panic ("runtime error: slice bounds out of range [:12] with length " +++
              itoa (strlen (Digest img))), w3)) /\
  (forall tag w0 digest w0',
      GetManifestDigest rc repository tag w0 = (Return (inr digest), w0') ->
      digest <> EmptyString).
Proof.
  intros Ht Hlen Hr HD Hpre Hshort. split.
  - rewrite (CleanupRepository_phases _ _ _ _ _ _ _ _ Ht Hlen Hr).
    assert (Hk : 0 <= keepLast /\ keepLast < len (sortImages images) /\
                 skipn (Z.to_nat keepLast) (sortImages images) = pre ++ img :: post).
    { unfold Delete, slice_from in HD.
      destruct (Z.gtb_spec (len (sortImages images)) keepLast).
      - destruct (Z.leb_spec 0 keepLast); cbn in HD; [|discriminate].
        destruct (Z.leb_spec keepLast (len (sortImages images)));
          cbn in HD; [|discriminate].
        inversion HD. auto.
      - inversion HD as [Hnil]. now destruct pre. }
    destruct Hk as (Hk0 & Hk1 & Hskip).
    unfold retain, bind at 1, printf. rewrite write_printed.
    unfold bind at 1.
    destruct (report_printed keepLast (sortImages images) 0
                (printed w2 [Printf "  Образы отсортированы по времени создания (новые первыми):\n" []]))
      as [lines ->].
    rewrite printed_printed.
    destruct (deleteOld_more rc (sortImages images) keepLast Hk0 Hk1) as [line ->].
    rewrite Hskip. unfold bind at 1, bind at 1. rewrite write_printed, printed_printed.
    destruct (deleteImages_short rc pre img post
                (printed w2 (([Printf "  Образы отсортированы по времени создания (новые первыми):\n" []] ++ lines) ++ [line]))
                Hpre Hshort) as (w3 & Hrun & Hpanic).
    eexists _, w3. split; [exact Hrun|]. now rewrite Hpanic.
  - intros tag w0 digest w0' Hd.
    destruct (GetManifestDigest_runs rc repository tag w0)
      as (r & w' & ex & out & Hrun & _ & _ & _ & _ & Hpost).
    rewrite Hd in Hrun. inversion Hrun; subst. now destruct Hpost.
Qed.

End Orchestration.

(* ================================================================== *)
(** ** The client *)

Section Client.
Context {P : Platform} {G : GoSort} {L : GoSortLaws G}.

Lemma Do_eq req w r e :
  Client_Do req (env w) = (r, e) ->
  Do req w =
  (Return r,
   {| env := e; exchanges := exchanges w ++ [(req, r)]; stdout := stdout w |}).
Proof. intros H. unfold Do. now rewrite H. Qed.

Lemma V1CompatibilityMembers_undated parse kvs : forall old,
  Forall (fun kv => fieldMatch "created" (fst kv) = false) kvs ->
  unmarshalV1CompatibilityMembers parse kvs old = Some old.
Proof.
  induction kvs as [|[k x] kvs IH]; intros old Hall;
    cbn [unmarshalV1CompatibilityMembers]; [reflexivity|].
  inversion Hall as [|? ? Hk Hrest]; subst. cbn [fst] in Hk.
  rewrite Hk. now apply IH.
Qed.

Lemma unmarshalV1Compatibility_undated parse v :
  lacksCreated v ->
  unmarshalV1Compatibility parse v =
  Some {| V1Compatibility_Created := zeroTime |}.
Proof.
  intros [-> | (kvs & -> & Hall)]; [reflexivity|].
  now apply V1CompatibilityMembers_undated.
Qed.

Lemma ConfigResponseMembers_undated parse kvs : forall old config,
  Forall (fun kv => fieldMatch "created" (fst kv) = false) kvs ->
  unmarshalConfigResponseMembers parse kvs old = Some config ->
  ConfigResponse_Created config = ConfigResponse_Created old.
Proof.
  induction kvs as [|[k x] kvs IH]; intros old config Hall;
    cbn [unmarshalConfigResponseMembers].
  - now intros [= <-].
  - inversion Hall as [|? ? Hk Hrest]; subst. cbn [fst] in Hk. rewrite Hk.
    destruct (fieldMatch "config" k).
    + destruct (unmarshalConfigLabels x (ConfigResponse_Config old));
        [|discriminate].
      intros H. now rewrite (IH _ _ Hrest H).
    + now apply IH.
Qed.

Lemma unmarshalConfigResponse_undated parse v config :
  lacksCreated v ->
  unmarshalConfigResponse parse v = Some config ->
  ConfigResponse_Created config = zeroTime.
Proof.
  intros [-> | (kvs & -> & Hall)] H.
  - now inversion H.
  - now rewrite (ConfigResponseMembers_undated _ _ _ _ Hall H).
Qed.

(** C10. A document without a [created] member decodes, and decodes to the
    zero time; [GetImageCreated] hands that zero time back as a success.
    With a schema-v1 manifest whose first history entry is such a document
    it returns after the first request, without trying schema v2 and
    without reading the clock; with a schema-v2 config blob that is such a
    document it returns after the blob request, again without reading the
    clock.  In the sorted slice an image dated at the zero time stands
    behind every image dated later than the zero time, so whenever such a
    later image is deleted the undated one is deleted too. *)
Theorem undated_image_is_oldest :
  (forall rc repository tag w req resp e manifest entry rest v,
      NewRequest "GET" (manifestURL rc repository tag) = inr req ->
      Client_Do (SetAccept mediaTypeV1 (authenticate rc req)) (env w)
        = (inr resp, e) ->
      StatusCode resp = StatusOK ->
      Decode_ManifestResponse (Body resp) = inr manifest ->
      History manifest = entry :: rest ->
      Unmarshal_scan (V1Compatibility_string entry) = Some v ->
      lacksCreated v ->
      GetImageCreated rc repository tag w =
      (Return (inr zeroTime),
       {| env := e;
          exchanges := exchanges w ++
            [(SetAccept mediaTypeV1 (authenticate rc req), inr resp)];
          stdout := stdout w |})) /\
  (forall rc repository tag w req resp1 e1 resp2 e2 manifestV2
          req3 resp3 e3 v config,
      NewRequest "GET" (manifestURL rc repository tag) = inr req ->
      Client_Do (SetAccept mediaTypeV1 (authenticate rc req)) (env w)
        = (inr resp1, e1) ->
      createdFromV1 resp1 = None ->
      Client_Do (SetAccept mediaTypeV2 (authenticate rc req)) e1
        = (inr resp2, e2) ->
      StatusCode resp2 = StatusOK ->
      Decode_ManifestV2Response (Body resp2) = inr manifestV2 ->
      Config_Digest (ManifestV2Response_Config manifestV2) <> EmptyString ->
      NewRequest "GET"
        (BaseURL rc +++ "/v2/" +++ repository +++ "/blobs/" +++
         Config_Digest (ManifestV2Response_Config manifestV2)) = inr req3 ->
      Client_Do (SetAccept mediaTypeV2 (authenticate rc req3)) e2
        = (inr resp3, e3) ->
      StatusCode resp3 = StatusOK ->
      Decoder_scan (Body resp3) = Some v ->
      lacksCreated v ->
      unmarshalConfigResponse parseRFC3339 v = Some config ->
      GetImageCreated rc repository tag w =
      (Return (inr zeroTime),
       {| env := e3;
          exchanges := ((exchanges w ++
            [(SetAccept mediaTypeV1 (authenticate rc req), inr resp1)]) ++
            [(SetAccept mediaTypeV2 (authenticate rc req), inr resp2)]) ++
            [(SetAccept mediaTypeV2 (authenticate rc req3), inr resp3)];
          stdout := stdout w |})) /\
  (forall collected undated dated,
      In undated collected -> In dated collected ->
      Created undated = zeroTime -> zeroTime < Created dated ->
      precedes dated undated (sortImages collected) /\
      forall keepLast toDelete,
        Delete collected keepLast = Return toDelete ->
        In dated toDelete -> In undated toDelete).
Proof.
  split; [|split].
  - intros rc repository tag w req resp e manifest entry rest v
           Hreq Hdo Hstatus Hman Hhist Hscan Hlacks.
    unfold GetImageCreated. rewrite Hreq. unfold bind at 1.
    rewrite (Do_eq _ _ _ _ Hdo).
    unfold createdFromV1, Unmarshal_V1Compatibility.
    rewrite Hstatus, Hman, Hhist, Hscan.
    rewrite (unmarshalV1Compatibility_undated _ _ Hlacks). reflexivity.
  - intros rc repository tag w req resp1 e1 resp2 e2 manifestV2
           req3 resp3 e3 v config
           Hreq Hdo1 Hv1 Hdo2 Hs2 Hman Hdig Hreq3 Hdo3 Hs3 Hscan Hlacks Hdec.
    unfold GetImageCreated. rewrite Hreq. unfold bind at 1.
    rewrite (Do_eq _ _ _ _ Hdo1), Hv1. unfold bind at 1.
    unfold Do at 1; cbn [env exchanges stdout]; rewrite Hdo2. unfold bind at 1.
    unfold createdFromV2. rewrite Hs2, Z.eqb_refl, Hman.
    apply String.eqb_neq in Hdig. rewrite Hdig. cbn [negb].
    unfold bind at 1, makeRequest. rewrite Hreq3.
    unfold Do at 1; cbn [env exchanges stdout]; rewrite Hdo3, Hs3, Z.eqb_refl.
    unfold Decode_ConfigResponse. rewrite Hscan, Hdec.
    rewrite (unmarshalConfigResponse_undated _ _ _ Hlacks Hdec). reflexivity.
  - intros collected undated dated Hu Hd Hzero Hlater.
    pose proof (sortImages_sorted collected) as Hs.
    pose proof (sortImages_perm collected) as Hp.
    split.
    + destruct (in_split _ _ (Permutation_in _ Hp Hu)) as (a & b & Hab).
      pose proof (Permutation_in _ Hp Hd) as Hin. rewrite Hab in Hin, Hs.
      apply in_app_or in Hin as [Hin|[Heq|Hin]].
      * destruct (in_split _ _ Hin) as (l1 & l2 & ->).
        exists l1, l2, b. rewrite Hab, <- app_assoc. reflexivity.
      * subst. unfold zeroTime in *. lia.
      * change (a ++ undated :: b) with (a ++ [undated] ++ b) in Hs.
        rewrite app_assoc in Hs.
        pose proof (sorted_app_inv _ _ _ Hs undated dated) as Hle.
        cbv beta in Hle. unfold zeroTime in *.
        assert (Created dated <= Created undated)
          by (apply Hle; [apply in_or_app; right; now left | assumption]).
        lia.
    + intros keepLast toDelete HD Hin.
      assert (Hsk : toDelete = skipn (Z.to_nat keepLast) (sortImages collected)).
      { unfold Delete, slice_from in HD.
        destruct (len (sortImages collected) >? keepLast).
        - destruct ((0 <=? keepLast) && (keepLast <=? len (sortImages collected)));
            now inversion HD.
        - inversion HD; subst. contradiction. }
      subst toDelete.
      pose proof (Permutation_in _ Hp Hu) as Hus.
      rewrite <- (firstn_skipn (Z.to_nat keepLast) (sortImages collected)) in Hus, Hs.
      apply in_app_or in Hus as [Hfirst|Hskip]; [|assumption].
      pose proof (sorted_app_inv _ _ _ Hs undated dated Hfirst Hin) as Hle.
      cbv beta in Hle. unfold zeroTime in *. lia.
Qed.

Notation "m ;; k" := (bind m (fun _ => k))
  (at level 61, right associativity).

Lemma makeRequest_eq rc method url w req resp e :
  NewRequest method url = inr req ->
  Client_Do (SetAccept mediaTypeV2 (authenticate rc req)) (env w) = (resp, e) ->
  makeRequest rc method url w =
  (Return resp,
   {| env := e;
      exchanges := exchanges w ++
        [(SetAccept mediaTypeV2 (authenticate rc req), resp)];
      stdout := stdout w |}).
Proof.
  intros Hreq Hdo. unfold makeRequest. rewrite Hreq. now apply Do_eq.
Qed.

Lemma deleteFailure_error status body w :
  exists w',
    deleteFailure status body w =
    (Return
       (if status =? StatusMethodNotAllowed
        then "удаление не поддерживается Registry (статус 405)"
        else if status =? StatusNotFound
        then "манифест не найден (статус 404): " +++ body
        else if status =? StatusUnauthorized
        then "ошибка авторизации (статус 401): " +++ body
        else if status =? StatusForbidden
        then "доступ запрещен (статус 403): " +++ body
        else "получен статус " +++ itoa status +++
             " при удалении манифеста: " +++ body), w').
Proof.
  unfold deleteFailure.
  destruct (status =? StatusMethodNotAllowed).
  - eexists. reflexivity.
  - destruct (status =? StatusNotFound); [eexists; reflexivity|].
    destruct (status =? StatusUnauthorized); [eexists; reflexivity|].
    destruct (status =? StatusForbidden); eexists; reflexivity.
Qed.

(** C8, as the code has it.  The error of a failed request is chosen by the
    status code.  [DeleteManifest] appends the response body to it for 404,
    401, 403 and every other unexpected status; for 405 the error is a fixed
    message and the body is dropped.  [GetRepositories], [GetTags] and
    [GetManifestDigest] do not tell statuses apart: any status other than
    200 gives a message with the status code and without the body. *)
Theorem error_carries_body_only_on_delete
    (rc : RegistryClient) (repository reference : string) (w : World)
    (method url : string) (req : Request) (resp : Response) (e : Env) :
  NewRequest method url = inr req ->
  Client_Do (SetAccept mediaTypeV2 (authenticate rc req)) (env w)
    = (inr resp, e) ->
  StatusCode resp <> StatusOK ->
  (method = "DELETE" -> url = manifestURL rc repository reference ->
   StatusCode resp <> StatusAccepted ->
   exists err,
     fst (DeleteManifest rc repository reference w) = Return (Some err) /\
     (StatusCode resp = 404 ->
      err = "манифест не найден (статус 404): " +++ Body resp) /\
     (StatusCode resp = 401 ->
      err = "ошибка авторизации (статус 401): " +++ Body resp) /\
     (StatusCode resp = 403 ->
      err = "доступ запрещен (статус 403): " +++ Body resp) /\
     (StatusCode resp = 405 ->
      err = "удаление не поддерживается Registry (статус 405)") /\
     (StatusCode resp <> 404 -> StatusCode resp <> 401 ->
      StatusCode resp <> 403 -> StatusCode resp <> 405 ->
      err = "получен статус " +++ itoa (StatusCode resp) +++
            " при удалении манифеста: " +++ Body resp)) /\
  (method = "GET" -> url = BaseURL rc +++ "/v2/_catalog" ->
   fst (GetRepositories rc w) =
   Return (inl ("получен статус " +++ itoa (StatusCode resp) +++
                " при запросе репозиториев"))) /\
  (method = "GET" ->
   url = BaseURL rc +++ "/v2/" +++ repository +++ "/tags/list" ->
   fst (GetTags rc repository w) =
   Return (inl ("получен статус " +++ itoa (StatusCode resp) +++
                " при запросе тегов для " +++ repository))) /\
  (method = "HEAD" -> url = manifestURL rc repository reference ->
   fst (GetManifestDigest rc repository reference w) =
   Return (inl ("получен статус " +++ itoa (StatusCode resp) +++
                " при запросе манифеста для " +++ repository +++ ":" +++
                reference))).
Proof.
  intros Hreq Hdo Hok.
  apply Z.eqb_neq in Hok.
  split; [|split; [|split]].
  - intros -> -> Hacc. apply Z.eqb_neq in Hacc.
    unfold DeleteManifest. rewrite Hreq. unfold bind at 1.
    rewrite (Do_eq _ _ _ _ Hdo), Hacc, Hok. cbn [orb]. unfold bind at 1.
    match goal with
    | |- context [deleteFailure ?s ?b ?w0] =>
      destruct (deleteFailure_error s b w0) as [w' ->]
    end.
    eexists. split; [reflexivity|].
    unfold StatusMethodNotAllowed, StatusNotFound, StatusUnauthorized,
      StatusForbidden.
    repeat split.
    + intros ->. reflexivity.
    + intros ->. reflexivity.
    + intros ->. reflexivity.
    + intros ->. reflexivity.
    + intros H404 H401 H403 H405.
      apply Z.eqb_neq in H404, H401, H403, H405.
      now rewrite H404, H401, H403, H405.
  - intros -> ->. unfold GetRepositories, bind at 1.
    rewrite (makeRequest_eq _ _ _ _ _ _ _ Hreq Hdo), Hok. reflexivity.
  - intros -> ->. unfold GetTags, bind at 1.
    rewrite (makeRequest_eq _ _ _ _ _ _ _ Hreq Hdo), Hok. reflexivity.
  - intros -> ->. unfold GetManifestDigest, bind at 1.
    rewrite (makeRequest_eq _ _ _ _ _ _ _ Hreq Hdo), Hok. reflexivity.
Qed.



End Client.

(* ================================================================== *)
(** ** The theorems at work on the fixture, and what does not hold *)

(** Three images of [app] with the retention count of [main]: [v3] and [v2]
    are kept, [v1] is deleted. *)
Lemma plan_keeps_the_newest_witness :
  0 < 2 /\ 2 < len [Fixture.v1; Fixture.v2; Fixture.v3] /\
  exists toDelete,
    @Delete stableSort [Fixture.v1; Fixture.v2; Fixture.v3] 2 = Return toDelete /\
    len toDelete = 1 /\
    len (@Keep stableSort [Fixture.v1; Fixture.v2; Fixture.v3] 2) = 2.
Proof.
  split; [lia|]. split; [reflexivity|].
  destruct (@plan_keeps_the_newest (Fixture.platform Fixture.appRegistry)
              stableSort stableSort_laws [Fixture.v1; Fixture.v2; Fixture.v3] 2)
    as (toDelete & HD & Hlen & Hkeep & _); [lia | reflexivity |].
  exists toDelete. repeat split; assumption.
Defined.

(** Two images and a retention count of two: nothing to delete. *)
Lemma few_images_nothing_deleted_witness :
  len [Fixture.v1; Fixture.v2] <= 2 /\
  @Delete stableSort [Fixture.v1; Fixture.v2] 2 = Return [].
Proof.
  split; [vm_compute; discriminate|].
  apply (@few_images_nothing_deleted (Fixture.platform Fixture.appRegistry)
           stableSort stableSort_laws [Fixture.v1; Fixture.v2] 2).
  vm_compute; discriminate.
Defined.

(** A retention count of zero deletes the one image there is. *)
Lemma keepLast_zero_deletes_everything_witness :
  [Fixture.v1] <> [] /\
  @Delete stableSort [Fixture.v1] 0 = Return (@sortImages stableSort [Fixture.v1]).
Proof.
  split; [discriminate|].
  apply (@keepLast_zero_deletes_everything (Fixture.platform Fixture.appRegistry)
           stableSort stableSort_laws [Fixture.v1]).
  discriminate.
Defined.

(** A negative retention count is not "delete everything": the slice
    expression panics, in the plan and in the run. *)
Lemma negative_keepLast_panics :
  ~ (forall (G : GoSort) (collected : list ImageInfo) (keepLast : Z),
        GoSortLaws G -> keepLast <= 0 -> collected <> [] ->
        exists toDelete,
          Delete collected keepLast = Return toDelete /\
          Permutation collected toDelete) /\
  fst (@retain (Fixture.platform Fixture.appRegistry) stableSort
         Fixture.client [Fixture.v1] (-1) (Fixture.start Fixture.appRegistry))
  = Panic "runtime error: slice bounds out of range [-1:]".
Proof.
  split; [|vm_compute; reflexivity].
  intros H.
  destruct (H stableSort [Fixture.v1] (-1)) as (toDelete & HD & _);
    [apply stableSort_laws | lia | discriminate |].
  vm_compute in HD. discriminate.
Qed.





(** The three tags of [app] resolve, three images are collected, and with a
    retention count of two the plan covers all three. *)
Lemma plan_covers_resolved_images_witness :
  0 <= 2 /\
  exists images w',
    @resolveTags (Fixture.platform Fixture.appRegistry) Fixture.client "app"
      ["v1"; "v2"; "v3"] [] (Fixture.start Fixture.appRegistry)
    = (Return images, w') /\
    exists toDelete,
      @Delete stableSort images 2 = Return toDelete /\
      (List.length (@Keep stableSort images 2) + List.length toDelete
       = List.length images)%nat.
Proof.
  split; [lia|].
  destruct (proj1 (@plan_covers_resolved_images
                     (Fixture.platform Fixture.appRegistry) stableSort stableSort_laws
                     Fixture.client "app" ["v1"; "v2"; "v3"] 2
                     (Fixture.start Fixture.appRegistry) ltac:(lia)))
    as (images & w' & ex & out & Hrun & _ & _ & Hlen & _ & toDelete & HD & Hsum).
  exists images, w'. split; [exact Hrun|].
  exists toDelete. split; [exact HD|]. now rewrite Hlen.
Defined.

Lemma appRegistry_LongDigests :
  @LongDigests (Fixture.platform Fixture.appRegistry).
Proof.
  intros req e.
  change (fst (Client_Do req e)) with (Fixture.appRegistry req).
  unfold Fixture.appRegistry.
  repeat match goal with
         | |- context [if ?b then _ else _] => destruct b
         end;
    first [left; reflexivity | right; vm_compute; discriminate].
Qed.

(** With deletion disabled the deletion of [v1] fails and is reported, and
    the loop returns; and the loop of [main] enters the one repository. *)
Lemma deletion_failures_are_contained_witness :
  (exists w' out,
      forEach [Fixture.v1]
        (@deleteImage (Fixture.platform Fixture.readOnlyRegistry) Fixture.client)
        (Fixture.start Fixture.readOnlyRegistry) = (Return tt, w') /\
      stdout w' = out /\
      attempted out = [("app", "v1")] /\
      map fst (reported out) = [("app", "v1")]) /\
  (exists w' out,
      forEach ["app"]
        (@cleanupOne (Fixture.platform Fixture.appRegistry) stableSort
           Fixture.client 2)
        (Fixture.start Fixture.appRegistry) = (Return tt, w') /\
      stdout w' = out /\ started out = ["app"]).
Proof.
  split.
  - destruct (proj1 (@deletion_failures_are_contained
                       (Fixture.platform Fixture.readOnlyRegistry) stableSort stableSort_laws)
                Fixture.client [Fixture.v1]
                ltac:(repeat constructor; vm_compute; discriminate)
                (Fixture.start Fixture.readOnlyRegistry))
      as ([] & w' & ex & out & Hrun & _ & Hout & Ha & Hr & _).
    exists w', out. repeat split; assumption.
  - destruct (proj2 (@deletion_failures_are_contained
                       (Fixture.platform Fixture.appRegistry) stableSort stableSort_laws)
                appRegistry_LongDigests Fixture.client 2 ["app"]
                ltac:(lia) (Fixture.start Fixture.appRegistry))
      as ([] & w' & ex & out & Hrun & _ & Hout & Hs).
    exists w', out. repeat split; assumption.
Defined.

(** The 405 of a registry with deletion disabled: the error is the fixed
    message. *)
Lemma error_carries_body_only_on_delete_witness :
  fst (@DeleteManifest (Fixture.platform Fixture.readOnlyRegistry)
         Fixture.client "app" "sha256:1111111111"
         (Fixture.start Fixture.readOnlyRegistry))
  = Return (Some "удаление не поддерживается Registry (статус 405)").
Proof.
  destruct (proj1 (@error_carries_body_only_on_delete
                     (Fixture.platform Fixture.readOnlyRegistry)
                     Fixture.client "app" "sha256:1111111111"
                     (Fixture.start Fixture.readOnlyRegistry)
                     "DELETE"
                     "http://localhost:5000/v2/app/manifests/sha256:1111111111"
                     {| Method := "DELETE";
                        URL := "http://localhost:5000/v2/app/manifests/sha256:1111111111";
                        BasicAuth := None; Accept := "" |}
                     {| StatusCode := 405;
                        Header := [("Docker-Content-Digest", "")];
                        Body := "The operation is unsupported." |}
                     1
                     ltac:(vm_compute; reflexivity)
                     ltac:(vm_compute; reflexivity)
                     ltac:(vm_compute; discriminate))
              eq_refl ltac:(vm_compute; reflexivity)
              ltac:(vm_compute; discriminate))
    as (err & Hrun & _ & _ & _ & H405 & _).
  rewrite Hrun, (H405 eq_refl). reflexivity.
Defined.

(** The body of a 405 answer is not in the error of [DeleteManifest], and
    the body of a 404 answer is not in the error of [GetManifestDigest]. *)
Lemma error_drops_body :
  ~ (forall (P : Platform) rc repository digest (w w' : World) req resp err,
        DeleteManifest rc repository digest w = (Return (Some err), w') ->
        exchanges w' = exchanges w ++ [(req, inr resp)] ->
        index 0 (Body resp) err <> None) /\
  fst (@GetManifestDigest (Fixture.platform Fixture.appRegistry)
         Fixture.client "app" "nope" (Fixture.start Fixture.appRegistry))
  = Return (inl "получен статус 404 при запросе манифеста для app:nope").
Proof.
  split; [|vm_compute; reflexivity].
  intros H.
  apply (H (Fixture.platform Fixture.readOnlyRegistry)
           Fixture.client "app" "sha256:1111111111"
           (Fixture.start Fixture.readOnlyRegistry)
           (snd (@DeleteManifest (Fixture.platform Fixture.readOnlyRegistry)
                   Fixture.client "app" "sha256:1111111111"
                   (Fixture.start Fixture.readOnlyRegistry)))
           {| Method := "DELETE";
              URL := "http://localhost:5000/v2/app/manifests/sha256:1111111111";
              BasicAuth := None; Accept := mediaTypeV2 |}
           {| StatusCode := 405;
              Header := [("Docker-Content-Digest", "")];
              Body := "The operation is unsupported." |}
           "удаление не поддерживается Registry (статус 405)");
    vm_compute; reflexivity.
Qed.

(** A registry with eight-byte digests: the three images are collected,
    [v1] is to be deleted, and [CleanupRepository] panics on its digest. *)
Lemma short_digest_panics_witness :
  fst (@CleanupRepository (Fixture.platform Fixture.shortDigestRegistry)
         stableSort Fixture.client "app" 2
         (Fixture.start Fixture.shortDigestRegistry))
  = Panic "runtime error: slice bounds out of range [:12] with length 8".
Proof.
  pose (w := Fixture.start Fixture.shortDigestRegistry).
  pose (w1 := snd (GetTags Fixture.client "app" (entered "app" w))).
  pose (w2 := snd (resolveTags Fixture.client "app" ["v1"; "v2"; "v3"] [] w1)).
  destruct (proj1 (@short_digest_panics
                     (Fixture.platform Fixture.shortDigestRegistry) stableSort
                     Fixture.client "app" 2 w w1 w2 ["v1"; "v2"; "v3"]
                     [Fixture.image "v1" "sha256:1" 20230101;
                      Fixture.image "v2" "sha256:2" 20230601;
                      Fixture.image "v3" "sha256:3" 20240101]
                     [] [] (Fixture.image "v1" "sha256:1" 20230101)
                     ltac:(vm_compute; reflexivity)
                     ltac:(vm_compute; reflexivity)
                     ltac:(vm_compute; reflexivity)
                     ltac:(vm_compute; reflexivity)
                     ltac:(constructor)
                     ltac:(vm_compute; reflexivity)))
    as (lines & w3 & _ & Hrun).
  fold w. rewrite Hrun. reflexivity.
Defined.

(** A schema-v1 manifest whose history entry is the empty object: the
    timestamp is the zero time, after one request; and among the images of
    [app] such an image stands behind [v3]. *)
Lemma undated_image_is_oldest_witness :
  @GetImageCreated (Fixture.platform Fixture.undatedRegistry)
    Fixture.client "app" "v1" (Fixture.start Fixture.undatedRegistry)
  = (Return (inr zeroTime),
     @Build_World (Fixture.platform Fixture.undatedRegistry) 1
       [({| Method := "GET";
            URL := "http://localhost:5000/v2/app/manifests/v1";
            BasicAuth := None; Accept := mediaTypeV1 |},
         inr {| StatusCode := 200;
                Header := [("Docker-Content-Digest", "sha256:1111111111")];
                Body := "{}" |})]
       []) /\
  precedes Fixture.v3 (Fixture.image "v1" "sha256:1111111111" zeroTime)
    (@sortImages stableSort
       [Fixture.image "v1" "sha256:1111111111" zeroTime; Fixture.v3]).
Proof.
  split.
  - apply (proj1 (@undated_image_is_oldest
                    (Fixture.platform Fixture.undatedRegistry) stableSort stableSort_laws)
             Fixture.client "app" "v1"
             (Fixture.start Fixture.undatedRegistry)
             {| Method := "GET";
                URL := "http://localhost:5000/v2/app/manifests/v1";
                BasicAuth := None; Accept := "" |}
             {| StatusCode := 200;
                Header := [("Docker-Content-Digest", "sha256:1111111111")];
                Body := "{}" |}
             1
             {| ManifestResponse_SchemaVersion := 1;
                History := [ {| V1Compatibility_string := "{}" |} ] |}
             {| V1Compatibility_string := "{}" |} [] (JObj []));
      try (vm_compute; reflexivity).
    right. exists []. split; [reflexivity | constructor].
  - apply (proj2 (proj2 (@undated_image_is_oldest
                           (Fixture.platform Fixture.undatedRegistry) stableSort stableSort_laws))
             [Fixture.image "v1" "sha256:1111111111" zeroTime; Fixture.v3]
             (Fixture.image "v1" "sha256:1111111111" zeroTime) Fixture.v3).
    + now left.
    + right. now left.
    + reflexivity.
    + vm_compute; reflexivity.
Defined.

(* ================================================================== *)
(** ** What holds of every run, however it ends *)

Section Safety.
Context {P : Platform} {G : GoSort} {L : GoSortLaws G}.

Notation "x <- m ;; k" := (bind m (fun x => k))
  (at level 61, m at next level, right associativity).
Notation "m ;; k" := (bind m (fun _ => k))
  (at level 61, right associativity).

Lemma safely_ret {A} I (a : A) (Q : A -> Prop) : Q a -> safely I (ret a) Q.
Proof.
  intros HQ w o w' [= <- <-]. exists []. now rewrite app_nil_r.
Qed.

Lemma safely_weaken {A} (I I' : Exchange -> Prop) (m : M A) (Q Q' : A -> Prop) :
  safely I m Q ->
  (forall x, I x -> I' x) -> (forall a, Q a -> Q' a) ->
  safely I' m Q'.
Proof.
  intros Hm HI HQ w o w' Hrun.
  destruct (Hm w o w' Hrun) as (ex & Hex & Hall & Ho).
  exists ex. split; [assumption|]. split.
  - eapply Forall_impl; [|exact Hall]. auto.
  - destruct o; auto.
Qed.

Lemma safely_bind {A B} I (m : M A) (f : A -> M B) (Q1 : A -> Prop)
    (Q : B -> Prop) :
  safely I m Q1 ->
  (forall a, Q1 a -> safely I (f a) Q) ->
  safely I (bind m f) Q.
Proof.
  intros Hm Hf w o w' Hrun. unfold bind in Hrun.
  destruct (m w) as [o1 w1] eqn:Em.
  destruct (Hm w o1 w1 Em) as (ex1 & Hex1 & Hall1 & Ho1).
  destruct o1 as [a|msg|code].
  - destruct (Hf a Ho1 w1 o w' Hrun) as (ex2 & Hex2 & Hall2 & Ho2).
    exists (ex1 ++ ex2). rewrite Hex2, Hex1, app_assoc.
    split; [reflexivity|]. split; [now apply Forall_app|assumption].
  - inversion Hrun; subst. exists ex1. auto.
  - inversion Hrun; subst. exists ex1. auto.
Qed.

Lemma safely_write I o : safely I (write o) (fun _ => True).
Proof.
  intros w o' w' [= <- <-]. exists []. cbn. now rewrite app_nil_r.
Qed.

Lemma safely_fatalf {A} I format args (Q : A -> Prop) :
  safely I (fatalf format args) Q.
Proof.
  intros w o' w' [= <- <-]. exists []. cbn. now rewrite app_nil_r.
Qed.

Lemma safely_lift {A} I (o : Outcome A) (Q : A -> Prop) :
  (forall a, o = Return a -> Q a) -> safely I (lift o) Q.
Proof.
  intros HQ w o' w' [= <- <-]. exists []. rewrite app_nil_r.
  split; [reflexivity|]. split; [constructor|]. destruct o; auto.
Qed.

Lemma safely_Do (I : Exchange -> Prop) req :
  (forall r, I (req, r)) -> safely I (Do req) (fun _ => True).
Proof.
  intros HI w o w' Hrun. unfold Do in Hrun.
  destruct (Client_Do req (env w)) as [r e]. inversion Hrun; subst.
  exists [(req, r)]. cbn. auto.
Qed.

Lemma safely_Now I : safely I Now (fun _ => True).
Proof.
  intros w o w' Hrun. unfold Now in Hrun.
  destruct (time_Now (env w)) as [t e]. inversion Hrun; subst.
  exists []. cbn. now rewrite app_nil_r.
Qed.

Lemma safely_forEach {A} I (l : list A) (body : A -> M unit) :
  (forall x, In x l -> safely I (body x) (fun _ => True)) ->
  safely I (forEach l body) (fun _ => True).
Proof.
  induction l as [|x l IH]; intros Hbody; cbn [forEach].
  - now apply safely_ret.
  - eapply safely_bind; [apply Hbody; now left|].
    intros _ _. apply IH. intros y Hy. apply Hbody. now right.
Qed.

Lemma safely_forEachIndexed {A} I (l : list A) (body : Z -> A -> M unit) :
  (forall i x, safely I (body i x) (fun _ => True)) ->
  forall i, safely I (forEachIndexed i l body) (fun _ => True).
Proof.
  intros Hbody. induction l as [|x l IH]; intros i; cbn [forEachIndexed].
  - now apply safely_ret.
  - eapply safely_bind; [apply Hbody|]. intros _ _. apply IH.
Qed.

Lemma append_assoc s1 s2 s3 : (s1 +++ s2) +++ s3 = s1 +++ s2 +++ s3.
Proof. induction s1 as [|c s1 IH]; cbn; [reflexivity | now rewrite IH]. Qed.

Lemma authenticated_authenticate rc req accept :
  BasicAuth req = None ->
  authenticated rc (SetAccept accept (authenticate rc req)).
Proof.
  intros Hnone. unfold authenticated, authenticate.
  destruct (String.eqb (Username rc) EmptyString) eqn:Hu; cbn.
  - rewrite Hnone. left. now apply String.eqb_eq.
  - destruct (String.eqb (Password rc) EmptyString) eqn:Hp; cbn.
    + rewrite Hnone. right. now apply String.eqb_eq.
    + apply String.eqb_neq in Hu, Hp. auto.
Qed.

Lemma made_request rc method url accept req r :
  NewRequest method url = inr req ->
  made rc method url accept (SetAccept accept (authenticate rc req), r).
Proof.
  intros Hreq. apply NewRequest_inr in Hreq. subst req.
  unfold made; cbn [fst].
  split; [now apply authenticated_authenticate|].
  cbn. now rewrite Method_authenticate, URL_authenticate.
Qed.

Lemma makeRequest_made rc method url :
  safely (made rc method url mediaTypeV2) (makeRequest rc method url)
         (fun _ => True).
Proof.
  unfold makeRequest.
  destruct (NewRequest method url) as [err|req] eqn:Hreq.
  - now apply safely_ret.
  - apply safely_Do. intros r. now apply made_request.
Qed.

Ltac safe_step :=
  match goal with
  | |- safely _ (ret _) _ => apply safely_ret; try exact I
  | |- safely _ (bind (printf _ _) _) _ =>
    eapply safely_bind; [apply safely_write | intros _ _]
  | |- safely _ (bind Now _) _ =>
    eapply safely_bind; [apply safely_Now | intros ? _]
  | |- safely _ (match ?x with _ => _ end) _ => destruct x eqn:?
  end.

Lemma GetRepositories_made rc :
  safely (made rc "GET" (BaseURL rc +++ "/v2/_catalog") mediaTypeV2)
         (GetRepositories rc) (fun _ => True).
Proof.
  unfold GetRepositories.
  eapply safely_bind; [apply makeRequest_made|].
  intros r _. repeat safe_step.
Qed.

Lemma GetTags_made rc repository :
  safely (made rc "GET" (BaseURL rc +++ "/v2/" +++ repository +++ "/tags/list")
               mediaTypeV2)
         (GetTags rc repository) (fun _ => True).
Proof.
  unfold GetTags.
  eapply safely_bind; [apply makeRequest_made|].
  intros r _. repeat safe_step.
Qed.

Lemma GetManifestDigest_made rc repository tag :
  safely (made rc "HEAD" (manifestURL rc repository tag) mediaTypeV2)
         (GetManifestDigest rc repository tag) (fun _ => True).
Proof.
  unfold GetManifestDigest.
  eapply safely_bind; [apply makeRequest_made|].
  intros r _. repeat safe_step.
Qed.

Lemma createdFromV2_made rc repository tag resp :
  safely (timestampLookup rc repository tag)
         (createdFromV2 rc repository resp) (fun _ => True).
Proof.
  unfold createdFromV2.
  destruct (StatusCode resp =? StatusOK); [|now apply safely_ret].
  destruct (Decode_ManifestV2Response (Body resp)) as [err|manifestV2];
    [now apply safely_ret|].
  destruct (negb _); [|now apply safely_ret].
  eapply safely_bind with (Q1 := fun _ => True).
  - eapply safely_weaken; [apply makeRequest_made | | auto].
    intros x Hx. right. right. eexists. exact Hx.
  - intros r _. repeat safe_step.
Qed.

Lemma GetImageCreated_made rc repository tag :
  safely (timestampLookup rc repository tag)
         (GetImageCreated rc repository tag) (fun _ => True).
Proof.
  unfold GetImageCreated.
  destruct (NewRequest "GET" (manifestURL rc repository tag))
    as [err|req] eqn:Hreq; [now apply safely_ret|].
  eapply safely_bind.
  { apply safely_Do. intros r. left. now apply made_request. }
  intros r _. destruct r as [err|resp]; [now apply safely_ret|].
  destruct (createdFromV1 resp); [now apply safely_ret|].
  eapply safely_bind.
  { apply safely_Do. intros r. right. left. now apply made_request. }
  intros r2 _. destruct r2 as [err|resp2]; [now apply safely_ret|].
  eapply safely_bind; [apply createdFromV2_made|].
  intros c _. repeat safe_step.
Qed.

Lemma DeleteManifest_made rc repository digest :
  safely (made rc "DELETE" (manifestURL rc repository digest) mediaTypeV2)
         (DeleteManifest rc repository digest) (fun _ => True).
Proof.
  unfold DeleteManifest.
  destruct (NewRequest "DELETE" (manifestURL rc repository digest))
    as [err|req] eqn:Hreq; [now apply safely_ret|].
  eapply safely_bind.
  - apply safely_Do; intros r. now apply made_request.
  - intros r _. destruct r as [err|resp]; [now apply safely_ret|].
    destruct (_ || _); [now apply safely_ret|].
    eapply safely_bind with (Q1 := fun _ => True);
      [|intros err _; now apply safely_ret].
    unfold deleteFailure.
    repeat first
      [ safe_step
      | eapply safely_bind;
        [ apply safely_forEach; intros line _; apply safely_write
        | intros _ _ ] ].
Qed.

Lemma resolveTag_lookup rc repository images tag :
  ofRepository repository images ->
  safely (lookup rc repository)
         (resolveTag rc repository images tag) (ofRepository repository).
Proof.
  intros Himages. unfold resolveTag.
  eapply safely_bind with (Q1 := fun _ => True).
  { eapply safely_weaken; [apply GetManifestDigest_made | | auto].
    intros x Hx. right. exists tag. now left. }
  intros d _. destruct d as [err|digest].
  - eapply safely_bind; [apply safely_write|]. intros _ _.
    now apply safely_ret.
  - eapply safely_bind with (Q1 := fun _ => True).
    { eapply safely_weaken; [apply GetImageCreated_made | | auto].
      intros x Hx. right. exists tag. now right. }
    intros c _.
    eapply safely_bind with (Q1 := fun _ => True).
    + destruct c as [err|created]; [|now apply safely_ret].
      eapply safely_bind; [apply safely_write|]. intros _ _.
      apply safely_Now.
    + intros created _.
      eapply safely_bind; [apply safely_write|]. intros _ _.
      apply safely_ret. apply Forall_app. split; [assumption|].
      now repeat constructor.
Qed.

Lemma resolveTags_lookup rc repository tags : forall images,
  ofRepository repository images ->
  safely (lookup rc repository)
         (resolveTags rc repository tags images) (ofRepository repository).
Proof.
  induction tags as [|tag tags IH]; intros images Himages; cbn [resolveTags].
  - now apply safely_ret.
  - eapply safely_bind; [now apply resolveTag_lookup|].
    intros images' Himages'. now apply IH.
Qed.

Lemma deleteImage_deletion rc img :
  safely (deletionOf rc [img]) (deleteImage rc img) (fun _ => True).
Proof.
  unfold deleteImage.
  eapply safely_bind with (Q1 := fun _ => True);
    [now apply safely_lift|].
  intros short _.
  eapply safely_bind; [apply safely_write|]. intros _ _.
  eapply safely_bind with (Q1 := fun _ => True).
  { eapply safely_weaken; [apply DeleteManifest_made | | auto].
    intros x Hx. exists img. split; [now left | exact Hx]. }
  intros r _. destruct r; apply safely_write.
Qed.

Lemma deleteImages_deletion rc imgs :
  safely (deletionOf rc imgs) (forEach imgs (deleteImage rc)) (fun _ => True).
Proof.
  apply safely_forEach. intros img Himg.
  eapply safely_weaken; [apply deleteImage_deletion | | auto].
  intros x (img' & [<-|[]] & Hx). now exists img.
Qed.

(** The deletion phase makes requests only to delete images of the plan. *)
Lemma retain_deletion rc collected keepLast :
  safely (fun x => exists toDelete,
              Delete collected keepLast = Return toDelete /\
              deletionOf rc toDelete x)
         (retain rc collected keepLast) (fun r => r = None).
Proof.
  unfold retain.
  eapply safely_bind; [apply safely_write|]. intros _ _.
  eapply safely_bind.
  { apply safely_forEachIndexed. intros i img. apply safely_write. }
  intros _ _.
  eapply safely_bind with (Q1 := fun _ => True);
    [|intros _ _; now apply safely_ret].
  unfold deleteOld, Delete.
  destruct (len (sortImages collected) >? keepLast); [|now apply safely_ret].
  unfold sliceFrom.
  destruct (slice_from (sortImages collected) keepLast) as [toDelete|msg|code]
    eqn:Hslice.
  - change (lift (Return toDelete)) with (ret toDelete). rewrite bind_ret.
    eapply safely_bind; [apply safely_write|]. intros _ _.
    eapply safely_weaken; [apply deleteImages_deletion | | auto].
    intros x Hx. now exists toDelete.
  - intros w o w' Hrun. unfold bind, lift in Hrun. inversion Hrun; subst.
    exists []. rewrite app_nil_r. auto.
  - intros w o w' Hrun. unfold bind, lift in Hrun. inversion Hrun; subst.
    exists []. rewrite app_nil_r. auto.
Qed.

Lemma bind_inv {A B} (m : M A) (f : A -> M B) w o w' :
  bind m f w = (o, w') ->
  (exists a w1, m w = (Return a, w1) /\ f a w1 = (o, w')) \/
  (exists msg, m w = (Panic msg, w') /\ o = Panic msg) \/
  (exists code, m w = (Exit code, w') /\ o = Exit code).
Proof.
  unfold bind. destruct (m w) as [[a|msg|code] w1]; intros H.
  - left. now exists a, w1.
  - inversion H; subst. right. left. now exists msg.
  - inversion H; subst. right. right. now exists code.
Qed.

Lemma sent_wider rc scope more x : sent rc (scope +++ more) x -> sent rc scope x.
Proof.
  intros (Ha & Hm & Hacc & rest & Hurl). repeat split; try assumption.
  exists (more +++ rest). now rewrite <- append_assoc.
Qed.

Lemma repositoryScope_url rc repository rest :
  BaseURL rc +++ "/v2/" +++ repository +++ "/" +++ rest =
  repositoryScope rc repository +++ rest.
Proof.
  unfold repositoryScope. now rewrite !append_assoc.
Qed.

Lemma made_sent rc scope method url accept rest x :
  made rc method url accept x ->
  method = "GET" \/ method = "HEAD" \/ method = "DELETE" ->
  accept = mediaTypeV1 \/ accept = mediaTypeV2 ->
  url = scope +++ rest ->
  sent rc scope x.
Proof.
  intros (Ha & Hm & Hu & Hacc) Hmethod Haccept Hurl.
  unfold sent. rewrite Hm, Hu, Hacc. repeat split; try assumption.
  now exists rest.
Qed.

Lemma lookup_sent rc repository x :
  lookup rc repository x -> sent rc (repositoryScope rc repository) x.
Proof.
  intros [H | (tag & [H | [H | [H | (digest & H)]]])].
  - eapply made_sent; [exact H | auto | auto |].
    apply (repositoryScope_url rc repository "tags/list").
  - eapply made_sent; [exact H | auto | auto |].
    apply (repositoryScope_url rc repository ("manifests/" +++ tag)).
  - eapply made_sent; [exact H | auto | auto |].
    apply (repositoryScope_url rc repository ("manifests/" +++ tag)).
  - eapply made_sent; [exact H | auto | auto |].
    apply (repositoryScope_url rc repository ("manifests/" +++ tag)).
  - eapply made_sent; [exact H | auto | auto |].
    apply (repositoryScope_url rc repository ("blobs/" +++ digest)).
Qed.

Lemma deletion_sent rc repository imgs x :
  ofRepository repository imgs ->
  deletionOf rc imgs x -> sent rc (repositoryScope rc repository) x.
Proof.
  intros Hrepo (img & Himg & H).
  unfold ofRepository in Hrepo. rewrite Forall_forall in Hrepo.
  rewrite (Hrepo img Himg) in H.
  eapply made_sent; [exact H | auto | auto |].
  apply (repositoryScope_url rc repository ("manifests/" +++ Digest img)).
Qed.

Lemma Delete_ofRepository repository images keepLast toDelete :
  ofRepository repository images ->
  Delete images keepLast = Return toDelete ->
  ofRepository repository toDelete.
Proof.
  intros Hrepo HD. unfold Delete, slice_from in HD.
  destruct (len (sortImages images) >? keepLast).
  - destruct (_ && _); inversion HD; subst.
    unfold ofRepository in *. rewrite Forall_forall in *.
    intros img Himg. apply Hrepo. apply in_skipn_in in Himg.
    now apply (Permutation_in _ (Permutation_sym (sortImages_perm images))).
  - inversion HD. constructor.
Qed.

(** The exchanges of a run of [CleanupRepository], however it ends: first
    lookups, then deletions, and the deletions are of images of the plan
    made from images of this repository. *)
Lemma CleanupRepository_trace rc repository keepLast w o w' :
  CleanupRepository rc repository keepLast w = (o, w') ->
  exists lookups deletions,
    exchanges w' = exchanges w ++ lookups ++ deletions /\
    Forall (lookup rc repository) lookups /\
    (deletions = [] \/
     exists images toDelete,
       ofRepository repository images /\
       Delete images keepLast = Return toDelete /\
       Forall (deletionOf rc toDelete) deletions).
Proof.
  intros Hrun. unfold CleanupRepository in Hrun.
  assert (Hdone : forall w1 ex,
             exchanges w1 = exchanges w ++ ex ->
             Forall (lookup rc repository) ex ->
             w1 = w' ->
             exists lookups deletions,
               exchanges w' = exchanges w ++ lookups ++ deletions /\
               Forall (lookup rc repository) lookups /\
               (deletions = [] \/
                exists images toDelete,
                  ofRepository repository images /\
                  Delete images keepLast = Return toDelete /\
                  Forall (deletionOf rc toDelete) deletions)).
  { intros w1 ex Hex Hall <-. exists ex, []. rewrite app_nil_r. auto. }
  apply bind_inv in Hrun as [(u & w0 & Hp & Hrun) | [(msg & Hp & _) | (c & Hp & _)]];
    try (inversion Hp; fail).
  assert (Hw0 : exchanges w0 = exchanges w) by (inversion Hp; reflexivity).
  clear Hp.
  apply bind_inv in Hrun as [(t & w1 & Ht & Hrun) | [(msg & Ht & _) | (c & Ht & _)]].
  2,3: destruct (GetTags_made rc repository _ _ _ Ht) as (ex & Hex & Hall & _);
       apply (Hdone w' ex); [now rewrite Hex, Hw0 | | reflexivity];
       eapply Forall_impl; [|exact Hall]; intros x Hx; now left.
  destruct (GetTags_made rc repository _ _ _ Ht) as (ex1 & Hex1 & Hall1 & _).
  assert (Hl1 : Forall (lookup rc repository) ex1)
    by (eapply Forall_impl; [|exact Hall1]; intros x Hx; now left).
  rewrite Hw0 in Hex1.
  destruct t as [err|tags].
  { inversion Hrun; subst. now apply (Hdone w' ex1). }
  destruct (len tags <=? keepLast).
  { apply bind_inv in Hrun
      as [(u' & w2 & Hp & Hrun) | [(msg & Hp & _) | (c & Hp & _)]];
      try (inversion Hp; fail).
    inversion Hrun; subst. inversion Hp; subst.
    refine (Hdone _ ex1 _ Hl1 eq_refl). cbn. exact Hex1. }
  apply bind_inv in Hrun
    as [(images & w2 & Hr & Hrun) | [(msg & Hr & _) | (c & Hr & _)]].
  2,3: destruct (resolveTags_lookup rc repository tags [] ltac:(constructor)
                   _ _ _ Hr) as (ex2 & Hex2 & Hall2 & _);
       apply (Hdone w' (ex1 ++ ex2));
         [now rewrite Hex2, Hex1, app_assoc | now apply Forall_app | reflexivity].
  destruct (resolveTags_lookup rc repository tags [] ltac:(constructor)
              _ _ _ Hr) as (ex2 & Hex2 & Hall2 & Himages).
  destruct (retain_deletion rc images keepLast _ _ _ Hrun)
    as (ex3 & Hex3 & Hall3 & _).
  exists (ex1 ++ ex2), ex3.
  split; [now rewrite Hex3, Hex2, Hex1, !app_assoc|].
  split; [now apply Forall_app|].
  destruct ex3 as [|x ex3]; [now left|]. right.
  inversion Hall3 as [|? ? (toDelete & HD & Hx) Hrest]; subst.
  exists images, toDelete. split; [assumption|]. split; [assumption|].
  constructor; [assumption|].
  eapply Forall_impl; [|exact Hrest].
  intros y (toDelete' & HD' & Hy). rewrite HD in HD'. now inversion HD'; subst.
Qed.

Lemma CleanupRepository_sent rc repository keepLast :
  safely (sent rc (repositoryScope rc repository))
         (CleanupRepository rc repository keepLast) (fun _ => True).
Proof.
  intros w o w' Hrun.
  destruct (CleanupRepository_trace _ _ _ _ _ _ Hrun)
    as (lookups & deletions & Hex & Hl & Hd).
  exists (lookups ++ deletions). split; [assumption|].
  split; [|now destruct o].
  apply Forall_app. split.
  - eapply Forall_impl; [|exact Hl]. apply lookup_sent.
  - destruct Hd as [-> | (images & toDelete & Hrepo & HD & Hall)];
      [constructor|].
    eapply Forall_impl; [|exact Hall].
    intros x Hx. apply (deletion_sent rc repository toDelete); [|exact Hx].
    eapply Delete_ofRepository; eassumption.
Qed.

Lemma main_sent :
  safely (sent mainClient (BaseURL mainClient +++ "/v2/")) main (fun _ => True).
Proof.
  unfold main. fold mainRegistryURL. fold mainClient.
  eapply safely_bind; [apply safely_write|]. intros _ _.
  eapply safely_bind; [apply safely_write|]. intros _ _.
  eapply safely_bind with (Q1 := fun _ => True).
  { eapply safely_weaken; [apply GetRepositories_made | | auto].
    intros x Hx. eapply made_sent; [exact Hx | auto | auto |].
    now rewrite append_assoc. }
  intros r _. destruct r as [err|repositories]; [apply safely_fatalf|].
  destruct (len repositories =? 0); [apply safely_write|].
  eapply safely_bind; [apply safely_write|]. intros _ _.
  eapply safely_bind with (Q1 := fun _ => True).
  { apply safely_forEach. intros repo _. unfold cleanupOne.
    eapply safely_bind with (Q1 := fun _ => True).
    - eapply safely_weaken; [apply CleanupRepository_sent | | auto].
      intros x Hx. apply (sent_wider _ _ (repo +++ "/")).
      unfold repositoryScope in Hx. now rewrite append_assoc.
    - intros r _. destruct r; [apply safely_write | now apply safely_ret]. }
  intros _ _.
  eapply safely_bind; [apply safely_write|]. intros _ _.
  eapply safely_bind; [apply safely_write|]. intros _ _.
  apply safely_write.
Qed.

End Safety.

(* ================================================================== *)
(** ** More about the client *)

Section MoreClient.
Context {P : Platform} {G : GoSort} {L : GoSortLaws G}.

Notation "x <- m ;; k" := (bind m (fun x => k))
  (at level 61, m at next level, right associativity).
Notation "m ;; k" := (bind m (fun _ => k))
  (at level 61, right associativity).

Lemma length_append s t :
  String.length (s +++ t) = (String.length s + String.length t)%nat.
Proof. induction s as [|c s IH]; cbn; [reflexivity | now rewrite IH]. Qed.

Lemma substring_all s : substring 0 (String.length s) s = s.
Proof. induction s as [|c s IH]; cbn; [reflexivity | now rewrite IH]. Qed.

Lemma substring_prefix s t : substring 0 (String.length s) (s +++ t) = s.
Proof.
  induction s as [|c s IH]; cbn; [now destruct t | now rewrite IH].
Qed.

Lemma substring_suffix s t m :
  substring (String.length s) m (s +++ t) = substring 0 m t.
Proof. induction s as [|c s IH]; cbn; [reflexivity | exact IH]. Qed.

Lemma substring_split s : forall n,
  (n <= String.length s)%nat ->
  substring 0 n s +++ substring n (String.length s - n) s = s.
Proof.
  induction s as [|c s IH]; intros n Hn; cbn in Hn.
  - now destruct n.
  - destruct n as [|n]; cbn [substring String.append String.length Nat.sub].
    + now rewrite substring_all.
    + rewrite IH by lia. reflexivity.
Qed.

Lemma TrimSuffix_append s suffix : TrimSuffix (s +++ suffix) suffix = s.
Proof.
  unfold TrimSuffix, HasSuffix. rewrite length_append.
  replace (String.length s + String.length suffix - String.length suffix)%nat
    with (String.length s) by lia.
  rewrite substring_suffix, substring_all, String.eqb_refl, substring_prefix.
  destruct (Nat.leb_spec (String.length suffix)
              (String.length s + String.length suffix)); [reflexivity | lia].
Qed.

Lemma TrimSuffix_cases s suffix :
  (HasSuffix s suffix = false /\ TrimSuffix s suffix = s) \/
  TrimSuffix s suffix +++ suffix = s.
Proof.
  unfold TrimSuffix. destruct (HasSuffix s suffix) eqn:H; [right | now left].
  unfold HasSuffix in H. apply andb_prop in H as [Hlen Heq].
  apply Nat.leb_le in Hlen. apply String.eqb_eq in Heq.
  rewrite <- Heq at 2.
  remember (String.length s - String.length suffix)%nat as n eqn:Hn.
  assert (Hk : String.length suffix = (String.length s - n)%nat) by lia.
  rewrite Hk. apply substring_split. lia.
Qed.

(** X1. [NewRegistryClient] takes the user name and the password as they
    are and removes one trailing slash from the base URL, and only that:
    a base URL written with a trailing slash gives the URL without it, and
    in every case the base URL given is the stored one or the stored one
    followed by a slash. *)
Theorem NewRegistryClient_trims_one_slash (baseURL username password : string) :
  BaseURL (NewRegistryClient (baseURL +++ "/") username password) = baseURL /\
  (BaseURL (NewRegistryClient baseURL username password) = baseURL \/
   BaseURL (NewRegistryClient baseURL username password) +++ "/" = baseURL) /\
  Username (NewRegistryClient baseURL username password) = username /\
  Password (NewRegistryClient baseURL username password) = password.
Proof.
  cbn. split; [apply TrimSuffix_append|]. split; [|auto].
  destruct (TrimSuffix_cases baseURL "/") as [[_ H]|H]; auto.
Qed.

(** X2. The comparison [CleanupRepository] hands to [sort.Slice] is a
    strict weak ordering, as [sort.Slice] requires: no image is newer than
    itself, newer-than is transitive, and so is being neither newer nor
    older. *)
Theorem newerFirst_is_a_strict_weak_order :
  StrictWeakOrder newerFirst /\
  (forall a, newerFirst a a = false) /\
  (forall a b c,
      newerFirst a b = true -> newerFirst b c = true -> newerFirst a c = true) /\
  (forall a b c,
      newerFirst a b = false -> newerFirst b a = false ->
      newerFirst b c = false -> newerFirst c b = false ->
      newerFirst a c = false /\ newerFirst c a = false).
Proof.
  split; [apply newerFirst_swo|]. unfold newerFirst, After.
  split; [intros a; apply Z.ltb_irrefl|]. split.
  - intros a b c H1 H2. apply Z.ltb_lt in H1, H2. apply Z.ltb_lt. lia.
  - intros a b c H1 H2 H3 H4. apply Z.ltb_ge in H1, H2, H3, H4.
    split; apply Z.ltb_ge; lia.
Qed.

(** X3. Once the [HEAD] request for a manifest is answered,
    [GetManifestDigest] returns a digest exactly when the status is 200 and
    the [Docker-Content-Digest] header is there and not empty; the digest
    is the header.  A 200 without the header is an error. *)
Theorem GetManifestDigest_needs_200_and_header
    (rc : RegistryClient) (repository tag : string) (w : World)
    (req : Request) (resp : Response) (e : Env) (digest : string) :
  NewRequest "HEAD" (manifestURL rc repository tag) = inr req ->
  Client_Do (SetAccept mediaTypeV2 (authenticate rc req)) (env w)
    = (inr resp, e) ->
  (fst (GetManifestDigest rc repository tag w) = Return (inr digest) <->
   StatusCode resp = StatusOK /\
   Header_Get (Header resp) "Docker-Content-Digest" = digest /\
   digest <> EmptyString) /\
  (StatusCode resp = StatusOK ->
   Header_Get (Header resp) "Docker-Content-Digest" = EmptyString ->
   fst (GetManifestDigest rc repository tag w) =
   Return (inl ("digest не найден для " +++ repository +++ ":" +++ tag))).
Proof.
  intros Hreq Hdo.
  remember (fst (GetManifestDigest rc repository tag w)) as o eqn:Ho.
  unfold GetManifestDigest, bind at 1 in Ho.
  rewrite (makeRequest_eq _ _ _ _ _ _ _ Hreq Hdo) in Ho.
  destruct (StatusCode resp =? StatusOK) eqn:Hs; cbn [negb] in Ho.
  - apply Z.eqb_eq in Hs.
    destruct (String.eqb (Header_Get (Header resp) "Docker-Content-Digest")
                EmptyString) eqn:Hd; cbn in Ho; subst o.
    + apply String.eqb_eq in Hd. split.
      * split; [intros H; inversion H|].
        intros (_ & H1 & H2). congruence.
      * intros _ _. reflexivity.
    + apply String.eqb_neq in Hd. split.
      * split.
        -- intros H. inversion H; subst. auto.
        -- intros (_ & <- & _). reflexivity.
      * intros _ Hempty. contradiction.
  - apply Z.eqb_neq in Hs. cbn in Ho. subst o. split.
    + split; [intros H; inversion H | intros (H & _); contradiction].
    + intros H. contradiction.
Qed.

(** X4. Once the [DELETE] request is made, [DeleteManifest] returns no
    error exactly when a response came back with status 200 or 202; a lost
    request and every other status give an error. *)
Theorem DeleteManifest_succeeds_on_200_and_202
    (rc : RegistryClient) (repository digest : string) (w : World)
    (req : Request) (r : Result Response) (e : Env) :
  NewRequest "DELETE" (manifestURL rc repository digest) = inr req ->
  Client_Do (SetAccept mediaTypeV2 (authenticate rc req)) (env w) = (r, e) ->
  (fst (DeleteManifest rc repository digest w) = Return None <->
   exists resp,
     r = inr resp /\
     (StatusCode resp = StatusAccepted \/ StatusCode resp = StatusOK)) /\
  exists result, fst (DeleteManifest rc repository digest w) = Return result.
Proof.
  intros Hreq Hdo.
  remember (fst (DeleteManifest rc repository digest w)) as o eqn:Ho.
  unfold DeleteManifest in Ho. rewrite Hreq in Ho. unfold bind at 1 in Ho.
  rewrite (Do_eq _ _ _ _ Hdo) in Ho.
  destruct r as [err|resp].
  - cbn in Ho. subst o. split; [|eexists; reflexivity].
    split; [intros H; inversion H | intros (resp & H & _); inversion H].
  - destruct (StatusCode resp =? StatusAccepted) eqn:Ha;
      [|destruct (StatusCode resp =? StatusOK) eqn:Hk]; cbn [orb] in Ho.
    + cbn in Ho. subst o. apply Z.eqb_eq in Ha.
      split; [|eexists; reflexivity].
      split; [intros _; exists resp; auto | reflexivity].
    + cbn in Ho. subst o. apply Z.eqb_eq in Hk.
      split; [|eexists; reflexivity].
      split; [intros _; exists resp; auto | reflexivity].
    + unfold bind at 1 in Ho.
      match type of Ho with
      | context [deleteFailure ?s ?b ?w0] =>
        destruct (deleteFailure_error s b w0) as [w' Hf]; rewrite Hf in Ho
      end.
      cbn in Ho. subst o. apply Z.eqb_neq in Ha, Hk.
      split; [|eexists; reflexivity].
      split; [intros H; inversion H|].
      intros (resp' & H & [Hs|Hs]); inversion H; subst; contradiction.
Qed.

Lemma guidance_printed w :
  forEach deleteDisabledGuidance (fun line => printf line []) w =
  (Return tt,
   printed w (map (fun line => Printf line []) deleteDisabledGuidance)).
Proof.
  generalize deleteDisabledGuidance as lines. intros lines. revert w.
  induction lines as [|line lines IH]; intros w; cbn [forEach map].
  - now rewrite printed_nil.
  - unfold bind, printf. rewrite write_printed, IH, printed_printed.
    reflexivity.
Qed.

(** X5. [DeleteManifest] prints only when the registry answers 405: then
    it prints the remediation text, one line per [Printf]; for a lost
    request and for every other status it prints nothing. *)
Theorem DeleteManifest_prints_guidance_on_405
    (rc : RegistryClient) (repository digest : string) (w : World)
    (req : Request) (r : Result Response) (e : Env) :
  NewRequest "DELETE" (manifestURL rc repository digest) = inr req ->
  Client_Do (SetAccept mediaTypeV2 (authenticate rc req)) (env w) = (r, e) ->
  stdout (snd (DeleteManifest rc repository digest w)) =
  stdout w ++
  match r with
  | inr resp =>
    if StatusCode resp =? StatusMethodNotAllowed
    then map (fun line => Printf line []) deleteDisabledGuidance
    else []
  | inl _ => []
  end.
Proof.
  intros Hreq Hdo.
  unfold DeleteManifest. rewrite Hreq. unfold bind at 1.
  rewrite (Do_eq _ _ _ _ Hdo).
  destruct r as [err|resp]; [cbn; now rewrite app_nil_r|].
  destruct (Z.eqb_spec (StatusCode resp) StatusMethodNotAllowed) as [H405|H405].
  - rewrite H405. cbn [Z.eqb orb StatusMethodNotAllowed StatusAccepted StatusOK
                         Pos.eqb].
    unfold bind at 1, deleteFailure. rewrite Z.eqb_refl.
    unfold bind at 1. rewrite guidance_printed. reflexivity.
  - destruct ((StatusCode resp =? StatusAccepted) || (StatusCode resp =? StatusOK));
      [cbn; now rewrite app_nil_r|].
    unfold bind at 1, deleteFailure.
    apply Z.eqb_neq in H405. rewrite H405.
    destruct (StatusCode resp =? StatusNotFound); [cbn; now rewrite app_nil_r|].
    destruct (StatusCode resp =? StatusUnauthorized);
      [cbn; now rewrite app_nil_r|].
    destruct (StatusCode resp =? StatusForbidden); cbn; now rewrite app_nil_r.
Qed.

(** X6. Schema v1 comes first: when the first response yields a creation
    time, [GetImageCreated] returns it after that one request; the
    schema-v2 manifest is not asked for, the clock is not read and nothing
    is printed. *)
Theorem GetImageCreated_prefers_schema_v1
    (rc : RegistryClient) (repository tag : string) (w : World)
    (req : Request) (resp : Response) (e : Env) (created : Time) :
  NewRequest "GET" (manifestURL rc repository tag) = inr req ->
  Client_Do (SetAccept mediaTypeV1 (authenticate rc req)) (env w)
    = (inr resp, e) ->
  createdFromV1 resp = Some created ->
  GetImageCreated rc repository tag w =
  (Return (inr created),
   {| env := e;
      exchanges := exchanges w ++
        [(SetAccept mediaTypeV1 (authenticate rc req), inr resp)];
      stdout := stdout w |}).
Proof.
  intros Hreq Hdo Hv1.
  unfold GetImageCreated. rewrite Hreq. unfold bind at 1.
  rewrite (Do_eq _ _ _ _ Hdo), Hv1. reflexivity.
Qed.

(** X7. A config blob that cannot be fetched is not an error.  When schema
    v1 yields nothing, the schema-v2 manifest names a config digest and the
    request for that blob is lost in transport, [GetImageCreated] prints
    the warning and returns the reading of the clock. *)
Theorem GetImageCreated_survives_a_lost_blob
    (rc : RegistryClient) (repository tag : string) (w : World)
    (req req3 : Request) (resp1 resp2 : Response) (e1 e2 e3 : Env)
    (manifestV2 : ManifestV2Response) (err : error) :
  NewRequest "GET" (manifestURL rc repository tag) = inr req ->
  Client_Do (SetAccept mediaTypeV1 (authenticate rc req)) (env w)
    = (inr resp1, e1) ->
  createdFromV1 resp1 = None ->
  Client_Do (SetAccept mediaTypeV2 (authenticate rc req)) e1
    = (inr resp2, e2) ->
  StatusCode resp2 = StatusOK ->
  Decode_ManifestV2Response (Body resp2) = inr manifestV2 ->
  Config_Digest (ManifestV2Response_Config manifestV2) <> EmptyString ->
  NewRequest "GET"
    (BaseURL rc +++ "/v2/" +++ repository +++ "/blobs/" +++
     Config_Digest (ManifestV2Response_Config manifestV2)) = inr req3 ->
  Client_Do (SetAccept mediaTypeV2 (authenticate rc req3)) e2
    = (inl err, e3) ->
  exists w',
    GetImageCreated rc repository tag w
      = (Return (inr (fst (time_Now e3))), w') /\
    env w' = snd (time_Now e3) /\
    stdout w' = stdout w ++
      [Printf "  Предупреждение: не удалось получить время создания для %s:%s, используем текущее время\n"
              [S_ repository; S_ tag]].
Proof.
  intros Hreq Hdo1 Hv1 Hdo2 Hs2 Hman Hdig Hreq3 Hdo3.
  unfold GetImageCreated. rewrite Hreq. unfold bind at 1.
  rewrite (Do_eq _ _ _ _ Hdo1), Hv1. unfold bind at 1.
  unfold Do at 1; cbn [env exchanges stdout]; rewrite Hdo2. unfold bind at 1.
  unfold createdFromV2. rewrite Hs2, Z.eqb_refl, Hman.
  apply String.eqb_neq in Hdig. rewrite Hdig. cbn [negb].
  unfold bind at 1, makeRequest. rewrite Hreq3.
  unfold Do at 1; cbn [env exchanges stdout]; rewrite Hdo3.
  unfold ret at 1. unfold bind at 1, printf. rewrite write_printed.
  unfold bind at 1, Now, printed; cbn [env exchanges stdout].
  destruct (time_Now e3) as [t e4]. eexists. cbn.
  split; [reflexivity|]. split; reflexivity.
Qed.

(** X8. When the tags of a repository cannot be listed,
    [CleanupRepository] returns that error at once, with no further
    request, and the loop of [main] prints it and goes on. *)
Theorem tag_listing_failure_skips_the_repository
    (rc : RegistryClient) (repository : string) (keepLast : Z)
    (w w1 : World) (err : error) :
  GetTags rc repository (entered repository w) = (Return (inl err), w1) ->
  CleanupRepository rc repository keepLast w = (Return (Some err), w1) /\
  cleanupOne rc keepLast repository w =
  (Return tt,
   printed w1 [Printf "Ошибка при очистке репозитория %s: %v\n"
                      [S_ repository; V_ err]]).
Proof.
  intros Ht.
  assert (Hc : CleanupRepository rc repository keepLast w
               = (Return (Some err), w1)).
  { unfold CleanupRepository, bind at 1.
    change (printf "Обработка репозитория: %s\n" [S_ repository] w)
      with (Return tt, entered repository w).
    cbv iota beta. unfold bind at 1. now rewrite Ht. }
  split; [exact Hc|].
  unfold cleanupOne, bind. rewrite Hc. reflexivity.
Qed.

Lemma main_after_banner w :
  main w =
  (r <- GetRepositories mainClient ;;
   match r with
   | inl err =>
     fatalf "Ошибка при получении списка репозиториев: %v" [V_ err]
   | inr repositories =>
     if len repositories =? 0 then println "Репозитории не найдены"
     else
       printf "Найдено %d репозиториев\n" [D_ (len repositories)] ;;
       forEach repositories (cleanupOne mainClient 2) ;;
       println "\n✅ Очистка завершена!" ;;
       println "\n⚠️  Важно: После удаления манифестов запустите garbage collection в Registry:" ;;
       println "docker exec <registry-container> registry garbage-collect /etc/docker/registry/config.yml"
   end) (printed w mainBanner).
Proof.
  unfold main. fold mainRegistryURL. fold mainClient.
  unfold bind at 1, printf at 1. rewrite write_printed.
  unfold bind at 1, printf at 1. rewrite write_printed, printed_printed.
  reflexivity.
Qed.

(** X9. [main] without a catalog.  When the repositories cannot be listed
    [main] writes the fatal message and exits with status 1; when the
    catalog is empty it prints that no repository was found and returns.
    In both cases nothing is requested after the catalog. *)
Theorem main_stops_without_repositories (w w1 : World) :
  (forall err,
      GetRepositories mainClient (printed w mainBanner)
        = (Return (inl err), w1) ->
      main w =
      (Exit 1,
       {| env := env w1; exchanges := exchanges w1;
          stdout := stdout w1 ++
            [Fatalf "Ошибка при получении списка репозиториев: %v"
                    [V_ err]] |})) /\
  (GetRepositories mainClient (printed w mainBanner) = (Return (inr []), w1) ->
   main w = (Return tt, printed w1 [Println "Репозитории не найдены"])).
Proof.
  split.
  - intros err Hr. rewrite main_after_banner. unfold bind at 1.
    rewrite Hr. reflexivity.
  - intros Hr. rewrite main_after_banner. unfold bind at 1.
    rewrite Hr. reflexivity.
Qed.


(** X11. Whatever the registry answers and however the run ends, every
    request of [CleanupRepository] lies under the URL of its repository,
    is a [GET], a [HEAD] or a [DELETE], and carries the credentials of the
    client exactly when the client has both. *)
Theorem CleanupRepository_stays_in_its_repository
    (rc : RegistryClient) (repository : string) (keepLast : Z)
    (w : World) (o : Outcome (option error)) (w' : World) :
  CleanupRepository rc repository keepLast w = (o, w') ->
  exists ex,
    exchanges w' = exchanges w ++ ex /\
    Forall (sent rc (repositoryScope rc repository)) ex.
Proof.
  intros Hrun.
  destruct (CleanupRepository_sent rc repository keepLast w o w' Hrun)
    as (ex & Hex & Hall & _).
  now exists ex.
Qed.

(** X12. Every request of [main], however the run ends, goes to the
    registry named by the environment (or to the default one), under its
    [/v2/] path, with the credentials of the environment when both are
    set and with none otherwise. *)
Theorem main_talks_to_the_registry_only
    (w : World) (o : Outcome unit) (w' : World) :
  main w = (o, w') ->
  exists ex,
    exchanges w' = exchanges w ++ ex /\
    Forall (sent mainClient (BaseURL mainClient +++ "/v2/")) ex.
Proof.
  intros Hrun. destruct (main_sent w o w' Hrun) as (ex & Hex & Hall & _).
  now exists ex.
Qed.

Lemma planned_line status keepLast i img :
  plannedImage status
    (Printf "    %d. %s:%s (%s) - %s\n"
            [D_ (i + 1); S_ (Repository img); S_ (Tag img);
             T_ (Created img) layout;
             S_ (if i >=? keepLast then "удалить" else "сохранить")]) =
  if String.eqb (if i >=? keepLast then "удалить" else "сохранить") status
  then Some (imageKey img) else None.
Proof.
  unfold plannedImage. rewrite String.eqb_refl. reflexivity.
Qed.

Lemma report_lines keepLast images : forall i w,
  exists lines,
    forEachIndexed i images (reportImage keepLast) w
      = (Return tt, printed w lines) /\
    markedToKeep lines
      = map imageKey (firstn (Z.to_nat (keepLast - i)) images) /\
    markedToDelete lines
      = map imageKey (skipn (Z.to_nat (keepLast - i)) images).
Proof.
  induction images as [|img images IH]; intros i w; cbn [forEachIndexed].
  - exists []. rewrite printed_nil, firstn_nil, skipn_nil. now repeat split.
  - unfold bind, reportImage at 1, printf. rewrite write_printed.
    destruct (IH (i + 1) (printed w [Printf "    %d. %s:%s (%s) - %s\n"
            [D_ (i + 1); S_ (Repository img); S_ (Tag img);
             T_ (Created img) layout;
             S_ (if i >=? keepLast then "удалить" else "сохранить")]]))
      as (lines & -> & Hkeep & Hdel).
    eexists. rewrite printed_printed. split; [reflexivity|].
    unfold markedToKeep, markedToDelete in *.
    cbn [List.app collect]. rewrite !planned_line, Hkeep, Hdel.
    destruct (Z.geb_spec i keepLast) as [Hge|Hlt].
    + replace (Z.to_nat (keepLast - i)) with 0%nat by lia.
      replace (Z.to_nat (keepLast - (i + 1))) with 0%nat by lia.
      split; reflexivity.
    + replace (Z.to_nat (keepLast - i))
        with (S (Z.to_nat (keepLast - (i + 1)))) by lia.
      split; reflexivity.
Qed.

(** X13. The plan that is printed is the plan that is carried out.  The
    loop over the sorted images prints one line per image; the lines marked
    as kept name the images of [Keep], in order, and the lines marked for
    deletion name the images that [Delete] hands to the deletion loop, in
    order.  For a negative [keepLast] every image is marked for deletion. *)
Theorem printed_plan_is_the_plan
    (collected : list ImageInfo) (keepLast : Z) (w : World) :
  exists lines,
    forEachIndexed 0 (sortImages collected) (reportImage keepLast) w
      = (Return tt, printed w lines) /\
    markedToKeep lines = map imageKey (Keep collected keepLast) /\
    (forall toDelete,
        Delete collected keepLast = Return toDelete ->
        markedToDelete lines = map imageKey toDelete) /\
    (keepLast < 0 ->
     markedToDelete lines = map imageKey (sortImages collected)).
Proof.
  destruct (report_lines keepLast (sortImages collected) 0 w)
    as (lines & Hrun & Hkeep & Hdel).
  rewrite Z.sub_0_r in Hkeep, Hdel.
  exists lines. split; [exact Hrun|]. split; [exact Hkeep|]. split.
  - intros toDelete HD. rewrite Hdel. f_equal.
    destruct (Z.ltb_spec keepLast 0) as [Hneg|Hk].
    + rewrite Delete_negative in HD by assumption. discriminate.
    + rewrite Delete_nonneg in HD by assumption. now inversion HD.
  - intros Hneg. rewrite Hdel.
    replace (Z.to_nat keepLast) with 0%nat by lia. reflexivity.
Qed.

Lemma resolveTag_appends rc repository images tag :
  safely (fun _ => True) (resolveTag rc repository images tag)
         (fun images' =>
            images' = images \/
            exists digest created,
              images' = images ++
                [ {| Repository := repository; Tag := tag;
                     Digest := digest; Created := created |} ]).
Proof.
  unfold resolveTag.
  eapply safely_bind with (Q1 := fun _ => True).
  { eapply safely_weaken; [apply GetManifestDigest_made | auto | auto]. }
  intros d _. destruct d as [err|digest].
  - eapply safely_bind; [apply safely_write|]. intros _ _.
    apply safely_ret. now left.
  - eapply safely_bind with (Q1 := fun _ => True).
    { eapply safely_weaken; [apply GetImageCreated_made | auto | auto]. }
    intros c _.
    eapply safely_bind with (Q1 := fun _ => True).
    + destruct c as [err|created]; [|now apply safely_ret].
      eapply safely_bind; [apply safely_write|]. intros _ _.
      apply safely_Now.
    + intros created _.
      eapply safely_bind; [apply safely_write|]. intros _ _.
      apply safely_ret. right. now exists digest, created.
Qed.

Lemma Subsequence_skips {A} (l1 l2 : list A) (pre : list A) :
  Subsequence l1 l2 -> Subsequence l1 (pre ++ l2).
Proof.
  intros H. induction pre as [|x pre IH]; [exact H|].
  cbn. now constructor.
Qed.

Lemma Subsequence_length {A} (l1 l2 : list A) :
  Subsequence l1 l2 -> (List.length l1 <= List.length l2)%nat.
Proof. induction 1; cbn; lia. Qed.

(** X14. Collecting the images of a repository always returns, and the
    images come in the order of the tag list: their tags are the tag list
    with some tags left out, each image names the repository, and so there
    are no more images than tags. *)
Theorem images_follow_the_tags
    (rc : RegistryClient) (repository : string) (tags : list string)
    (w : World) :
  exists images w',
    resolveTags rc repository tags [] w = (Return images, w') /\
    Subsequence (map Tag images) tags /\
    ofRepository repository images /\
    len images <= len tags.
Proof.
  assert (H : forall images w0, exists new w',
             resolveTags rc repository tags images w0
               = (Return (images ++ new), w') /\
             Subsequence (map Tag new) tags /\
             ofRepository repository new).
  { induction tags as [|tag tags IH]; intros images w0; cbn [resolveTags].
    - exists [], w0. rewrite app_nil_r. repeat split; constructor.
    - destruct (resolveTag_runs rc repository images tag w0)
        as (images1 & w1 & ex & out & Hrun & _).
      destruct (resolveTag_appends rc repository images tag w0 _ _ Hrun)
        as (_ & _ & _ & Hshape).
      unfold bind at 1. rewrite Hrun.
      destruct (IH images1 w1) as (new & w' & -> & Hsub & Hrepo).
      destruct Hshape as [-> | (digest & created & ->)].
      + exists new, w'. split; [reflexivity|].
        split; [now constructor | assumption].
      + eexists (_ :: new), w'. rewrite <- app_assoc. cbn [List.app].
        split; [reflexivity|]. split.
        * cbn. now constructor.
        * constructor; [reflexivity | assumption]. }
  destruct (H [] w) as (new & w' & Hrun & Hsub & Hrepo).
  exists new, w'. cbn [List.app] in Hrun.
  split; [exact Hrun|]. split; [exact Hsub|]. split; [exact Hrepo|].
  apply Subsequence_length in Hsub. rewrite length_map in Hsub.
  unfold len. lia.
Qed.

Ltac quiet_step :=
  match goal with
  | |- safely _ (ret _) _ => apply safely_ret; try exact I
  | |- safely _ (bind (printf _ _) _) _ =>
    eapply safely_bind; [apply safely_write | intros _ _]
  | |- safely _ (bind Now _) _ =>
    eapply safely_bind; [apply safely_Now | intros ? _]
  | |- safely _ (match ?x with _ => _ end) _ => destruct x eqn:?
  end.

Lemma quiet_follows {A} (m : M A) (Q : A -> Prop) steps w o w' :
  safely (fun _ => False) m Q ->
  m w = (o, w') ->
  exists ex, exchanges w' = exchanges w ++ ex /\ follows steps ex.
Proof.
  intros Hm Hrun. destruct (Hm w o w' Hrun) as (ex & Hex & Hall & _).
  destruct ex as [|x ex]; [|now inversion Hall].
  exists []. split; [exact Hex | exact I].
Qed.

Lemma Do_bind_follows {B} req (f : Result Response -> M B)
    (step : Exchange -> Prop) later w o w' :
  (forall r, step (req, r)) ->
  (forall r w1, f r w1 = (o, w') ->
     exists ex, exchanges w' = exchanges w1 ++ ex /\ follows later ex) ->
  bind (Do req) f w = (o, w') ->
  exists ex, exchanges w' = exchanges w ++ ex /\ follows (step :: later) ex.
Proof.
  intros Hstep Hf Hrun. unfold bind at 1, Do at 1 in Hrun.
  destruct (Client_Do req (env w)) as [r e].
  destruct (Hf r _ Hrun) as (ex & Hex & Hfol).
  exists ((req, r) :: ex). cbn [exchanges] in Hex.
  rewrite Hex, <- app_assoc. split; [reflexivity|]. cbn. auto.
Qed.

Lemma createdFromV2_follows rc repository resp w o w' :
  createdFromV2 rc repository resp w = (o, w') ->
  exists ex,
    exchanges w' = exchanges w ++ ex /\
    follows
      [fun x => exists digest,
           made rc "GET"
             (BaseURL rc +++ "/v2/" +++ repository +++ "/blobs/" +++ digest)
             mediaTypeV2 x] ex.
Proof.
  unfold createdFromV2.
  destruct (StatusCode resp =? StatusOK);
    [|apply quiet_follows with (Q := fun _ => True); now apply safely_ret].
  destruct (Decode_ManifestV2Response (Body resp)) as [err|manifestV2];
    [apply quiet_follows with (Q := fun _ => True); now apply safely_ret|].
  destruct (negb _);
    [|apply quiet_follows with (Q := fun _ => True); now apply safely_ret].
  unfold makeRequest.
  destruct (NewRequest "GET" _) as [err|req] eqn:Hreq.
  - apply quiet_follows with (Q := fun _ => True).
    rewrite bind_ret. now apply safely_ret.
  - apply Do_bind_follows.
    + intros r. cbv beta. eexists. apply made_request. exact Hreq.
    + intros r w1. apply quiet_follows with (Q := fun _ => True).
      repeat quiet_step.
Qed.

(** X15. [GetImageCreated] asks at most three times, in a fixed order and
    however it ends: the manifest as schema v1, then the same manifest as
    schema v2, then one config blob of the repository; every request is a
    [GET] with the credentials of the client. *)
Theorem GetImageCreated_asks_in_order
    (rc : RegistryClient) (repository tag : string)
    (w : World) (o : Outcome (Result Time)) (w' : World) :
  GetImageCreated rc repository tag w = (o, w') ->
  exists ex,
    exchanges w' = exchanges w ++ ex /\
    follows
      [ made rc "GET" (manifestURL rc repository tag) mediaTypeV1;
        made rc "GET" (manifestURL rc repository tag) mediaTypeV2;
        fun x => exists digest,
            made rc "GET"
              (BaseURL rc +++ "/v2/" +++ repository +++ "/blobs/" +++ digest)
              mediaTypeV2 x ] ex /\
    (List.length ex <= 3)%nat.
Proof.
  intros Hrun.
  assert (H : exists ex,
             exchanges w' = exchanges w ++ ex /\
             follows
               [ made rc "GET" (manifestURL rc repository tag) mediaTypeV1;
                 made rc "GET" (manifestURL rc repository tag) mediaTypeV2;
                 fun x => exists digest,
                     made rc "GET"
                       (BaseURL rc +++ "/v2/" +++ repository +++ "/blobs/" +++
                        digest) mediaTypeV2 x ] ex).
  { revert Hrun. unfold GetImageCreated.
    destruct (NewRequest "GET" (manifestURL rc repository tag))
      as [err|req] eqn:Hreq.
    { apply quiet_follows with (Q := fun _ => True). now apply safely_ret. }
    apply Do_bind_follows; [intros r; now apply made_request|].
    intros r w1. destruct r as [err|resp].
    { apply quiet_follows with (Q := fun _ => True). now apply safely_ret. }
    destruct (createdFromV1 resp).
    { apply quiet_follows with (Q := fun _ => True). now apply safely_ret. }
    apply Do_bind_follows; [intros r; now apply made_request|].
    intros r2 w2. destruct r2 as [err|resp2].
    { apply quiet_follows with (Q := fun _ => True). now apply safely_ret. }
    intros Hrun.
    apply bind_inv in Hrun
      as [(c & w3 & Hc & Hrun) | [(msg & Hc & _) | (code & Hc & _)]];
      try (now apply createdFromV2_follows in Hc).
    apply createdFromV2_follows in Hc as (ex1 & Hex1 & Hfol1).
    assert (Hq : exists ex,
               exchanges w' = exchanges w3 ++ ex /\ follows [] ex).
    { revert Hrun. apply quiet_follows with (Q := fun _ => True).
      repeat quiet_step. }
    destruct Hq as (ex & Hex & Hfol).
    destruct ex as [|x ex]; [|contradiction].
    exists ex1. rewrite app_nil_r in Hex. rewrite Hex. now split. }
  destruct H as (ex & Hex & Hfol). exists ex.
  split; [exact Hex|]. split; [exact Hfol|].
  destruct ex as [|x1 [|x2 [|x3 [|x4 ex]]]]; cbn; try lia.
  cbn in Hfol. tauto.
Qed.

(** X16. When the registry only sends digests of at least twelve bytes,
    [main] cannot panic.  Either the catalog cannot be listed and [main]
    exits with status 1, or [main] returns, having entered every repository
    of the catalog once, in the order of the catalog. *)
Theorem main_returns_or_exits (w : World) :
  LongDigests ->
  exists r w1 w',
    GetRepositories mainClient (printed w mainBanner) = (Return r, w1) /\
    match r with
    | inl _ => main w = (Exit 1, w')
    | inr repositories =>
      main w = (Return tt, w') /\
      exists out, stdout w' = stdout w1 ++ out /\ started out = repositories
    end.
Proof.
  intros HL.
  destruct (GetRepositories_runs mainClient (printed w mainBanner))
    as (r & w1 & ex & out & Hrun & _).
  exists r, w1.
  destruct r as [err|repositories].
  { eexists. split; [exact Hrun|].
    rewrite main_after_banner. unfold bind at 1. rewrite Hrun. reflexivity. }
  destruct (len repositories =? 0) eqn:Hn.
  - eexists. split; [exact Hrun|]. split.
    + rewrite main_after_banner. unfold bind at 1. rewrite Hrun.
      cbv beta iota. rewrite Hn. reflexivity.
    + eexists. cbn [printed stdout]. split; [reflexivity|].
      destruct repositories; [reflexivity|].
      apply Z.eqb_eq in Hn. unfold len in Hn. cbn in Hn. lia.
  - destruct (cleanupAll_runs mainClient 2 repositories HL ltac:(lia)
                (printed w1 [Printf "Найдено %d репозиториев\n"
                                    [D_ (len repositories)]]))
      as ([] & w2 & ex2 & out2 & Hrun2 & _ & Hout2 & Hs).
    eexists. split; [exact Hrun|]. split.
    + rewrite main_after_banner. unfold bind at 1. rewrite Hrun.
      cbv beta iota. rewrite Hn.
      unfold bind at 1, printf. rewrite write_printed.
      unfold bind at 1. rewrite Hrun2.
      unfold bind, println. rewrite !write_printed, !printed_printed.
      reflexivity.
    + eexists. cbn [printed stdout] in *. rewrite Hout2, <- !app_assoc.
      split; [reflexivity|].
      unfold started in *. cbn [List.app collect startedRepo].
      rewrite collect_app, Hs. cbn. now rewrite app_nil_r.
Qed.

(** X17. Over a registry that only sends digests of at least twelve bytes
    and for a retention count that is not negative, [CleanupRepository]
    always returns, and it announces the deletion of exactly as many images
    as there were digests resolved beyond [keepLast]: none when no more
    than [keepLast] were resolved. *)
Theorem CleanupRepository_attempts_the_surplus
    (rc : RegistryClient) (repository : string) (keepLast : Z) :
  LongDigests -> 0 <= keepLast ->
  runs (CleanupRepository rc repository keepLast)
       (fun _ ex out =>
          List.length (attempted out) = (resolved ex - Z.to_nat keepLast)%nat).
Proof.
  intros HL Hk. unfold CleanupRepository.
  apply runs_bind_printf.
  eapply runs_bind; [apply GetTags_runs|].
  intros t ex1 out1 (-> & Hres1 & _); cbv beta.
  destruct t as [err|tags].
  { apply runs_ret. rewrite !app_nil_r, Hres1. reflexivity. }
  destruct (len tags <=? keepLast).
  { apply runs_bind_printf, runs_ret. rewrite !app_nil_r, Hres1. reflexivity. }
  eapply runs_bind; [apply resolveTags_runs|].
  intros images ex2 out2 ((_ & Ha2 & _) & _ & new & -> & Hn2 & Hall);
    cbv beta.
  destruct (retain_runs rc ([] ++ new) keepLast Hk) as (toDelete & HD & Hrun).
  { eapply Forall_impl; [|exact Hall]. intros img (_ & _ & _ & H). auto. }
  eapply runs_weaken; [apply Hrun|].
  intros r ex3 out3 (_ & _ & Hres3 & Ha3 & _).
  rewrite Delete_nonneg in HD by assumption. inversion HD; subst toDelete.
  unfold attempted in *. cbn [List.app collect attemptedImage].
  rewrite collect_app, Ha2, Ha3. cbn [List.app].
  rewrite length_map, length_skipn, !resolved_app, Hres1, Hres3, <- Hn2.
  pose proof (sortImages_len new) as Hsl. unfold len in Hsl. lia.
Qed.

(** X18. A list of repositories or of tags comes from one place only: the
    single [GET] of the operation was answered with status 200 and a body
    that decodes, and the list is the one decoded from that body.  Nothing
    is printed on the way. *)
Theorem listings_come_from_a_200_answer (rc : RegistryClient) :
  (forall w repositories w',
      GetRepositories rc w = (Return (inr repositories), w') ->
      exists req resp decoded,
        exchanges w' = exchanges w ++ [(req, inr resp)] /\
        made rc "GET" (BaseURL rc +++ "/v2/_catalog") mediaTypeV2
             (req, inr resp) /\
        StatusCode resp = StatusOK /\
        Decode_RepositoriesResponse (Body resp) = inr decoded /\
        repositories = Repositories decoded /\
        stdout w' = stdout w) /\
  (forall repository w tags w',
      GetTags rc repository w = (Return (inr tags), w') ->
      exists req resp decoded,
        exchanges w' = exchanges w ++ [(req, inr resp)] /\
        made rc "GET" (BaseURL rc +++ "/v2/" +++ repository +++ "/tags/list")
             mediaTypeV2 (req, inr resp) /\
        StatusCode resp = StatusOK /\
        Decode_TagsResponse (Body resp) = inr decoded /\
        tags = Tags decoded /\
        stdout w' = stdout w).
Proof.
  split.
  - intros w repositories w'. unfold GetRepositories, makeRequest.
    destruct (NewRequest "GET" _) as [err|req] eqn:Hreq;
      [rewrite bind_ret; intros [=]|].
    unfold bind, Do, ret.
    destruct (Client_Do _ (env w)) as [[err|resp] e]; [intros [=]|].
    destruct (StatusCode resp =? StatusOK) eqn:Hs; cbn [negb]; [|intros [=]].
    destruct (Decode_RepositoriesResponse (Body resp)) as [err|decoded] eqn:Hd;
      intros [= <- <-].
    exists (SetAccept mediaTypeV2 (authenticate rc req)), resp, decoded.
    cbn [exchanges stdout]. apply Z.eqb_eq in Hs.
    split; [reflexivity|]. split; [now apply made_request|].
    split; [assumption|]. split; [assumption|]. split; reflexivity.
  - intros repository w tags w'. unfold GetTags, makeRequest.
    destruct (NewRequest "GET" _) as [err|req] eqn:Hreq;
      [rewrite bind_ret; intros [=]|].
    unfold bind, Do, ret.
    destruct (Client_Do _ (env w)) as [[err|resp] e]; [intros [=]|].
    destruct (StatusCode resp =? StatusOK) eqn:Hs; cbn [negb]; [|intros [=]].
    destruct (Decode_TagsResponse (Body resp)) as [err|decoded] eqn:Hd;
      intros [= <- <-].
    exists (SetAccept mediaTypeV2 (authenticate rc req)), resp, decoded.
    cbn [exchanges stdout]. apply Z.eqb_eq in Hs.
    split; [reflexivity|]. split; [now apply made_request|].
    split; [assumption|]. split; [assumption|]. split; reflexivity.
Qed.

End MoreClient.

(* ================================================================== *)
(** ** The further properties on the registries above *)

(** The digest of [app:v1] is the header of the answer. *)
Lemma GetManifestDigest_needs_200_and_header_witness :
  fst (@GetManifestDigest (Fixture.platform Fixture.appRegistry)
         Fixture.client "app" "v1" (Fixture.start Fixture.appRegistry))
  = Return (inr "sha256:1111111111").
Proof.
  apply (proj2 (proj1 (@GetManifestDigest_needs_200_and_header
                         (Fixture.platform Fixture.appRegistry)
                         Fixture.client "app" "v1"
                         (Fixture.start Fixture.appRegistry)
                         {| Method := "HEAD";
                            URL := "http://localhost:5000/v2/app/manifests/v1";
                            BasicAuth := None; Accept := "" |}
                         {| StatusCode := 200;
                            Header := [("Docker-Content-Digest",
                                        "sha256:1111111111")];
                            Body := "{created:2023-01-01}" |}
                         1 "sha256:1111111111"
                         ltac:(vm_compute; reflexivity)
                         ltac:(vm_compute; reflexivity)))).
  split; [reflexivity|]. split; [reflexivity | discriminate].
Defined.

(** The registry accepts the deletion with status 202. *)
Lemma DeleteManifest_succeeds_on_200_and_202_witness :
  fst (@DeleteManifest (Fixture.platform Fixture.appRegistry)
         Fixture.client "app" "sha256:1111111111"
         (Fixture.start Fixture.appRegistry))
  = Return None.
Proof.
  apply (proj2 (proj1 (@DeleteManifest_succeeds_on_200_and_202
                         (Fixture.platform Fixture.appRegistry)
                         Fixture.client "app" "sha256:1111111111"
                         (Fixture.start Fixture.appRegistry)
                         {| Method := "DELETE";
                            URL := "http://localhost:5000/v2/app/manifests/sha256:1111111111";
                            BasicAuth := None; Accept := "" |}
                         (Fixture.reply 202 "" "") 1
                         ltac:(vm_compute; reflexivity)
                         ltac:(vm_compute; reflexivity)))).
  eexists. split; [reflexivity|]. left. reflexivity.
Defined.

(** With deletion disabled the remediation text is all that is printed. *)
Lemma DeleteManifest_prints_guidance_on_405_witness :
  stdout (snd (@DeleteManifest (Fixture.platform Fixture.readOnlyRegistry)
                 Fixture.client "app" "sha256:1111111111"
                 (Fixture.start Fixture.readOnlyRegistry)))
  = map (fun line => Printf line []) deleteDisabledGuidance.
Proof.
  exact (@DeleteManifest_prints_guidance_on_405
           (Fixture.platform Fixture.readOnlyRegistry)
           Fixture.client "app" "sha256:1111111111"
           (Fixture.start Fixture.readOnlyRegistry)
           {| Method := "DELETE";
              URL := "http://localhost:5000/v2/app/manifests/sha256:1111111111";
              BasicAuth := None; Accept := "" |}
           (Fixture.reply 405 "" "The operation is unsupported.") 1
           ltac:(vm_compute; reflexivity)
           ltac:(vm_compute; reflexivity)).
Defined.

(** [app:v1] is dated by its schema-v1 manifest, after one request. *)
Lemma GetImageCreated_prefers_schema_v1_witness :
  @GetImageCreated (Fixture.platform Fixture.appRegistry)
    Fixture.client "app" "v1" (Fixture.start Fixture.appRegistry)
  = (Return (inr 20230101),
     @Build_World (Fixture.platform Fixture.appRegistry) 1
       [({| Method := "GET";
            URL := "http://localhost:5000/v2/app/manifests/v1";
            BasicAuth := None; Accept := mediaTypeV1 |},
         inr {| StatusCode := 200;
                Header := [("Docker-Content-Digest", "sha256:1111111111")];
                Body := "{created:2023-01-01}" |})]
       []).
Proof.
  exact (@GetImageCreated_prefers_schema_v1
           (Fixture.platform Fixture.appRegistry)
           Fixture.client "app" "v1" (Fixture.start Fixture.appRegistry)
           {| Method := "GET";
              URL := "http://localhost:5000/v2/app/manifests/v1";
              BasicAuth := None; Accept := "" |}
           {| StatusCode := 200;
              Header := [("Docker-Content-Digest", "sha256:1111111111")];
              Body := "{created:2023-01-01}" |}
           1 20230101
           ltac:(vm_compute; reflexivity)
           ltac:(vm_compute; reflexivity)
           ltac:(vm_compute; reflexivity)).
Defined.

(** The blob request is the third; it is lost, and the image is dated by
    the clock, which then reads 3. *)
Lemma GetImageCreated_survives_a_lost_blob_witness :
  exists w',
    @GetImageCreated (Fixture.platform Fixture.lostBlobRegistry)
      Fixture.client "app" "v1" (Fixture.start Fixture.lostBlobRegistry)
    = (Return (inr 3), w') /\
    List.length (stdout w') = 1%nat.
Proof.
  destruct (@GetImageCreated_survives_a_lost_blob
              (Fixture.platform Fixture.lostBlobRegistry)
              Fixture.client "app" "v1" (Fixture.start Fixture.lostBlobRegistry)
              {| Method := "GET";
                 URL := "http://localhost:5000/v2/app/manifests/v1";
                 BasicAuth := None; Accept := "" |}
              {| Method := "GET";
                 URL := "http://localhost:5000/v2/app/blobs/sha256:cfg";
                 BasicAuth := None; Accept := "" |}
              {| StatusCode := 404;
                 Header := [("Docker-Content-Digest", "")];
                 Body := "not found" |}
              {| StatusCode := 200;
                 Header := [("Docker-Content-Digest", "sha256:1111111111")];
                 Body := "sha256:cfg" |}
              1 2 3
              {| ManifestV2Response_SchemaVersion := 2;
                 MediaType := mediaTypeV2;
                 ManifestV2Response_Config := {| Config_Digest := "sha256:cfg" |} |}
              "context deadline exceeded"
              ltac:(vm_compute; reflexivity)
              ltac:(vm_compute; reflexivity)
              ltac:(vm_compute; reflexivity)
              ltac:(vm_compute; reflexivity)
              ltac:(vm_compute; reflexivity)
              ltac:(vm_compute; reflexivity)
              ltac:(vm_compute; discriminate)
              ltac:(vm_compute; reflexivity)
              ltac:(vm_compute; reflexivity))
    as (w' & Hrun & _ & Hout).
  exists w'. split; [exact Hrun|]. rewrite Hout. reflexivity.
Defined.

(** The registry cannot be reached: the repository is given up at once. *)
Lemma tag_listing_failure_skips_the_repository_witness :
  fst (@CleanupRepository (Fixture.platform Fixture.unreachable) stableSort
         Fixture.client "app" 2 (Fixture.start Fixture.unreachable))
  = Return (Some ("ошибка при получении тегов для app: " +++
                  "dial tcp 127.0.0.1:5000: connect: connection refused")).
Proof.
  rewrite (proj1 (@tag_listing_failure_skips_the_repository
                    (Fixture.platform Fixture.unreachable) stableSort
                    Fixture.client "app" 2 (Fixture.start Fixture.unreachable)
                    (snd (GetTags Fixture.client "app"
                            (entered "app" (Fixture.start Fixture.unreachable))))
                    ("ошибка при получении тегов для app: " +++
                     "dial tcp 127.0.0.1:5000: connect: connection refused")
                    ltac:(vm_compute; reflexivity))).
  reflexivity.
Defined.

(** The registry cannot be reached: [main] exits with status 1. *)
Lemma main_stops_without_repositories_witness :
  fst (@main (Fixture.platform Fixture.unreachable) stableSort
         (Fixture.start Fixture.unreachable))
  = Exit 1.
Proof.
  rewrite (proj1 (@main_stops_without_repositories
                    (Fixture.platform Fixture.unreachable) stableSort
                    (Fixture.start Fixture.unreachable)
                    (snd (GetRepositories
                            (@mainClient (Fixture.platform Fixture.unreachable))
                            (printed (Fixture.start Fixture.unreachable)
                               (@mainBanner
                                  (Fixture.platform Fixture.unreachable))))))
             ("ошибка при получении списка репозиториев: " +++
              "dial tcp 127.0.0.1:5000: connect: connection refused")
             ltac:(vm_compute; reflexivity)).
  reflexivity.
Defined.


(** Every request of the run over [app] lies under the repository. *)
Lemma CleanupRepository_stays_in_its_repository_witness :
  exists ex,
    exchanges (snd (@CleanupRepository (Fixture.platform Fixture.appRegistry)
                      stableSort Fixture.client "app" 2
                      (Fixture.start Fixture.appRegistry)))
    = ex /\
    Forall (sent Fixture.client "http://localhost:5000/v2/app/") ex.
Proof.
  exact (@CleanupRepository_stays_in_its_repository
           (Fixture.platform Fixture.appRegistry) stableSort stableSort_laws
           Fixture.client "app" 2 (Fixture.start Fixture.appRegistry)
           (Return None)
           (snd (@CleanupRepository (Fixture.platform Fixture.appRegistry)
                   stableSort Fixture.client "app" 2
                   (Fixture.start Fixture.appRegistry)))
           ltac:(vm_compute; reflexivity)).
Defined.

(** Every request of a whole run lies under the registry. *)
Lemma main_talks_to_the_registry_only_witness :
  exists ex,
    exchanges (snd (@main (Fixture.platform Fixture.appRegistry) stableSort
                      (Fixture.start Fixture.appRegistry)))
    = ex /\
    Forall (sent (@mainClient (Fixture.platform Fixture.appRegistry))
                 "http://localhost:5000/v2/") ex.
Proof.
  exact (@main_talks_to_the_registry_only
           (Fixture.platform Fixture.appRegistry) stableSort stableSort_laws
           (Fixture.start Fixture.appRegistry)
           (Return tt)
           (snd (@main (Fixture.platform Fixture.appRegistry) stableSort
                   (Fixture.start Fixture.appRegistry)))
           ltac:(vm_compute; reflexivity)).
Defined.

(** Of the three images of [app], [v3] and [v2] are printed as kept and
    [v1] as deleted. *)
Lemma printed_plan_is_the_plan_witness :
  exists lines,
    markedToKeep lines = [("app", "v3"); ("app", "v2")] /\
    markedToDelete lines = [("app", "v1")].
Proof.
  destruct (@printed_plan_is_the_plan
              (Fixture.platform Fixture.appRegistry) stableSort
              [Fixture.v1; Fixture.v2; Fixture.v3] 2
              (Fixture.start Fixture.appRegistry))
    as (lines & _ & Hkeep & Hdel & _).
  exists lines. split; [exact Hkeep|].
  exact (Hdel [Fixture.v1] ltac:(vm_compute; reflexivity)).
Defined.

(** A tag the registry does not know: two requests, both for the manifest. *)
Lemma GetImageCreated_asks_in_order_witness :
  exists ex,
    exchanges (snd (@GetImageCreated (Fixture.platform Fixture.appRegistry)
                      Fixture.client "app" "nope"
                      (Fixture.start Fixture.appRegistry)))
    = ex /\
    (List.length ex <= 3)%nat.
Proof.
  destruct (@GetImageCreated_asks_in_order
              (Fixture.platform Fixture.appRegistry)
              Fixture.client "app" "nope" (Fixture.start Fixture.appRegistry)
              (Return (inr 2))
              (snd (@GetImageCreated (Fixture.platform Fixture.appRegistry)
                      Fixture.client "app" "nope"
                      (Fixture.start Fixture.appRegistry)))
              ltac:(vm_compute; reflexivity))
    as (ex & Hex & _ & Hlen).
  exists ex. split; [exact Hex | exact Hlen].
Defined.

(** A whole run against [app]: the catalog is listed and [main] returns. *)
Lemma main_returns_or_exits_witness :
  exists r w1 w',
    GetRepositories (@mainClient (Fixture.platform Fixture.appRegistry))
      (printed (Fixture.start Fixture.appRegistry)
         (@mainBanner (Fixture.platform Fixture.appRegistry)))
    = (Return r, w1) /\
    match r with
    | inl _ =>
      @main (Fixture.platform Fixture.appRegistry) stableSort
        (Fixture.start Fixture.appRegistry) = (Exit 1, w')
    | inr repositories =>
      @main (Fixture.platform Fixture.appRegistry) stableSort
        (Fixture.start Fixture.appRegistry) = (Return tt, w') /\
      exists out, stdout w' = stdout w1 ++ out /\ started out = repositories
    end.
Proof.
  exact (@main_returns_or_exits
           (Fixture.platform Fixture.appRegistry) stableSort stableSort_laws
           (Fixture.start Fixture.appRegistry) appRegistry_LongDigests).
Defined.

(** Three digests resolve, two images are kept, one deletion is announced. *)
Lemma CleanupRepository_attempts_the_surplus_witness :
  0 <= 2 /\
  exists r w' ex out,
    @CleanupRepository (Fixture.platform Fixture.appRegistry) stableSort
      Fixture.client "app" 2 (Fixture.start Fixture.appRegistry)
    = (Return r, w') /\
    exchanges w' = exchanges (Fixture.start Fixture.appRegistry) ++ ex /\
    stdout w' = stdout (Fixture.start Fixture.appRegistry) ++ out /\
    List.length (attempted out) = (resolved ex - Z.to_nat 2)%nat.
Proof.
  split; [lia|].
  exact (@CleanupRepository_attempts_the_surplus
           (Fixture.platform Fixture.appRegistry) stableSort stableSort_laws
           Fixture.client "app" 2 appRegistry_LongDigests ltac:(lia)
           (Fixture.start Fixture.appRegistry)).
Defined.

(** The tags of [app] are the ones decoded from the answer. *)
Lemma listings_come_from_a_200_answer_witness :
  exists req resp decoded,
    made Fixture.client "GET" "http://localhost:5000/v2/app/tags/list"
         mediaTypeV2 (req, inr resp) /\
    StatusCode resp = StatusOK /\
    @Decode_TagsResponse (Fixture.platform Fixture.appRegistry) (Body resp)
      = inr decoded /\
    ["v1"; "v2"; "v3"] = Tags decoded.
Proof.
  destruct (proj2 (@listings_come_from_a_200_answer
                     (Fixture.platform Fixture.appRegistry) Fixture.client)
              "app" (Fixture.start Fixture.appRegistry) ["v1"; "v2"; "v3"]
              (snd (@GetTags (Fixture.platform Fixture.appRegistry)
                      Fixture.client "app"
                      (Fixture.start Fixture.appRegistry)))
              ltac:(vm_compute; reflexivity))
    as (req & resp & decoded & _ & Hmade & Hs & Hd & Ht & _).
  exists req, resp, decoded.
  split; [exact Hmade|]. split; [exact Hs|]. split; [exact Hd | exact Ht].
Defined.
